(** * gotestmd: rendering of suites and tests, and the command that writes them

    A shallow embedding of [cmd/gotestmd] (the [RunE] closure of [New],
    [processGoSuites], [processBashSuites], [getFilter],
    [getRecursiveDirectories]) and of the [generator] package's [Body],
    [Suite] and [Test] with their renderers.

    Go strings are byte strings: they are [string] here, one [ascii] per
    byte.  A slice that is only read or appended to is a [list].  The
    [[]*Suite] that [processGoSuites] and [processBashSuites] range over is a
    list of addresses into a heap of suites, because both functions assign to
    fields of the suites they visit. *)

From Stdlib Require Import String Ascii List Bool Arith Lia.
From stdpp Require Import base list strings.
Import ListNotations.

Local Open Scope string_scope.
Local Open Scope list_scope.

(** ** Text helpers *)

(** The bytes that the Go sources write as escapes or that cannot be
    typed inside a literal here. *)
Definition nl : string := String "010"%char EmptyString.
Definition tab : string := String "009"%char EmptyString.
Definition dq : string := String "034"%char EmptyString.
Definition bslash : string := String "092"%char EmptyString.

(** [len(s)] of a Go string. *)
Definition len (s : string) : nat := String.length s.

(** [strings.Split(s, sep)] for a separator of one byte: the pieces between
    the separators, in order; a string without separator (the empty one
    too) gives one piece. *)
Fixpoint strings_Split (s : string) (sep : ascii) : list string :=
  match s with
  | EmptyString => [EmptyString]
  | String c rest =>
      if Ascii.eqb c sep then EmptyString :: strings_Split rest sep
      else match strings_Split rest sep with
           | [] => [String c EmptyString]
           | piece :: pieces => String c piece :: pieces
           end
  end.

(** [strings.Join(elems, sep)]. *)
Definition strings_Join (elems : list string) (sep : string) : string :=
  String.concat sep elems.

(** [strings.HasPrefix(s, prefix)]. *)
Definition strings_HasPrefix (s pre : string) : bool := String.prefix pre s.

(** [path.Split]: everything up to and including the final slash, and what
    follows it.  [filepath.Split] is the same function on a system whose
    separator is the slash and that has no volume names. *)
Fixpoint path_Split (p : string) : string * string :=
  match p with
  | EmptyString => (EmptyString, EmptyString)
  | String c rest =>
      match path_Split rest with
      | (EmptyString, file) =>
          if Ascii.eqb c "/"%char then (String c EmptyString, file)
          else (EmptyString, String c file)
      | (dir, file) => (String c dir, file)
      end
  end.

Definition filepath_Split : string -> string * string := path_Split.

(** ASCII classes. *)
Definition in_range (lo hi : nat) (c : ascii) : bool :=
  let n := nat_of_ascii c in (lo <=? n)%nat && (n <=? hi)%nat.

Definition is_digit : ascii -> bool := in_range 48 57.
Definition is_upper : ascii -> bool := in_range 65 90.
Definition is_lower : ascii -> bool := in_range 97 122.

Definition is_word (c : ascii) : bool :=
  is_digit c || is_upper c || is_lower c || Ascii.eqb c "_"%char.

(** [strings.Title] on a string of ASCII bytes: a byte is mapped to its
    title case when the byte before it (a space before the first) is a
    separator.  [isSeparator] is false on ASCII letters, digits and the
    underscore and true on every other ASCII byte.  The one caller,
    [generateChildrenTesting], passes it what [nameRegex] has rewritten,
    which holds ASCII word bytes only; what Go does with the runes above 127
    is not modelled. *)
Definition isSeparator (c : ascii) : bool := negb (is_word c).

Definition unicode_ToTitle (c : ascii) : ascii :=
  if is_lower c then ascii_of_nat (nat_of_ascii c - 32) else c.

Fixpoint Title_from (prev : ascii) (s : string) : string :=
  match s with
  | EmptyString => EmptyString
  | String r rest =>
      String (if isSeparator prev then unicode_ToTitle r else r)
             (Title_from r rest)
  end.

Definition strings_Title (s : string) : string := Title_from " "%char s.

(** The number of bytes that follow the first byte [c] of a rune in its
    UTF-8 encoding, as [utf8.DecodeRuneInString] reads it from [c] and the
    bytes [rest] after it; an ill-formed or truncated sequence is a rune of
    one byte. *)
Definition rune_tail (c : ascii) (rest : string) : nat :=
  let n := nat_of_ascii c in
  let size_lo_hi :=
    if (n <? 194)%nat then (0, 0, 0)
    else if (n <? 224)%nat then (1, 128, 191)
    else if (n =? 224)%nat then (2, 160, 191)
    else if (n =? 237)%nat then (2, 128, 159)
    else if (n <? 240)%nat then (2, 128, 191)
    else if (n =? 240)%nat then (3, 144, 191)
    else if (n <? 244)%nat then (3, 128, 191)
    else if (n =? 244)%nat then (3, 128, 143)
    else (0, 0, 0) in
  match size_lo_hi, rest with
  | (1, lo, hi), String b1 _ => if in_range lo hi b1 then 1 else 0
  | (2, lo, hi), String b1 (String b2 _) =>
      if in_range lo hi b1 && in_range 128 191 b2 then 2 else 0
  | (3, lo, hi), String b1 (String b2 (String b3 _)) =>
      if in_range lo hi b1 && in_range 128 191 b2 && in_range 128 191 b3
      then 3 else 0
  | _, _ => 0
  end.

(** Modelled from the spec: [nameRegex], a package variable that neither
    source file declares.  The spec has the title made by replacing the
    non-identifier characters; [nameRegex.ReplaceAllString(s, "_")] is
    therefore each rune of [s] that is not an ASCII letter, digit or
    underscore replaced by one underscore.  [skip] counts the bytes still to
    drop of a rune already replaced. *)
Fixpoint nameRegex_replace (skip : nat) (s : string) : string :=
  match s with
  | EmptyString => EmptyString
  | String c rest =>
      match skip with
      | S k => nameRegex_replace k rest
      | O =>
          if is_word c then String c (nameRegex_replace 0 rest)
          else String "_"%char (nameRegex_replace (rune_tail c rest) rest)
      end
  end.

Definition nameRegex_ReplaceAllString (s : string) : string :=
  nameRegex_replace 0 s.

(** A string with its first byte in title case and the rest as it is. *)
Definition capitalizeFirst (s : string) : string :=
  match s with
  | EmptyString => EmptyString
  | String c rest => String (unicode_ToTitle c) rest
  end.

(** A string of ASCII letters, digits and underscores only. *)
Fixpoint all_word (s : string) : bool :=
  match s with
  | EmptyString => true
  | String c rest => is_word c && all_word rest
  end.

(** ** Body (suite.go) *)

(** [type Body []string]. *)
Definition Body : Type := list string.

(** The inner loop of [Body.String] over the lines of one block: each line
    between backquotes, and [+"\n"+] after every line but the last
    ([i+1 < len(lines)]). *)
Fixpoint Body_lines (lines : list string) : string :=
  match lines with
  | [] => EmptyString
  | line :: rest =>
      "`" +:+ line +:+ "`" +:+
      (match rest with
       | [] => EmptyString
       | _ :: _ => "+" +:+ dq +:+ bslash +:+ "n" +:+ dq +:+ "+"
       end) +:+ Body_lines rest
  end.

Definition Body_block (block : string) : string :=
  "r.Run(" +:+ Body_lines (strings_Split block "010"%char) +:+ ")" +:+ nl.

(** [func (b Body) String() string]. *)
Definition Body_String (b : Body) : string :=
  match b with
  | [] => EmptyString
  | _ :: _ => String.concat EmptyString (map Body_block b)
  end.

(** What [Suite.String] and [Test.String] both do to the rendered cleanup
    body: [fmt.Sprintf] around it when it is not empty. *)
Definition wrap_cleanup (cleanup : string) : string :=
  if (0 <? len cleanup)%nat
  then tab +:+ "s.T().Cleanup(func() {" +:+ nl +:+
       tab +:+ tab +:+ cleanup +:+ nl +:+
       tab +:+ "})"
  else cleanup.

(** ** What the two source files use and do not declare

    [Suite] embeds [Dependency] and holds two [Dependencies];
    [Test.BashString] calls [Body.BashString]; [spaceRegex] is a package
    variable.  None of them is declared in [suite.go] or [test.go]: they are
    taken as they are used.  [TrimSpace] and [Abs] are the Go library's
    ([Abs] reads the working directory). *)
Class Generator : Type := {
  generator_Dependency : Type;
  Dependency_Name : generator_Dependency -> string;
  generator_Dependencies : Type;
  Dependencies_String : generator_Dependencies -> string;
  Dependencies_FieldsString : generator_Dependencies -> string;
  Dependencies_SetupString : generator_Dependencies -> string;
  Body_BashString : Body -> bool -> string;
  spaceRegex_ReplaceAllString : string -> string -> string;
  strings_TrimSpace : string -> string;
  filepath_Abs : string -> string
}.

(** ** Test (test.go) *)

Module Test.

(** [type Test struct]. *)
Record t : Type := mk {
  Dir : string;
  Name : string;
  Cleanup : Body;
  Run : Body
}.

(** [new(Test)]: every field at its zero value. *)
Definition new : t := mk EmptyString EmptyString [] [].

(** [const emptyTest]. *)
Definition emptyTest : string := "func (s *Suite) Test() {}".

(** [const testTemplate], executed on its four fields.  [text/template]
    copies the text between actions verbatim and prints a string field as
    it is. *)
Definition testTemplate (dir name cleanup run : string) : string :=
  nl +:+ "func (s *Suite) Test" +:+ name +:+ "() {" +:+ nl +:+
  tab +:+ "r := s.Runner(" +:+ dq +:+ dir +:+ dq +:+ ")" +:+ nl +:+
  tab +:+ cleanup +:+ nl +:+
  tab +:+ run +:+ nl +:+
  "}" +:+ nl.

(** [func (t *Test) String() string].  It assigns to no field of [t].
    [emptyTest] holds no action, so executing it gives its text whatever
    the data. *)
Definition String_ (x : t) : string :=
  let cleanup := wrap_cleanup (Body_String (Cleanup x)) in
  if (length (Cleanup x) + length (Run x) =? 0)%nat
  then emptyTest
  else testTemplate (Dir x) (Name x) cleanup (Body_String (Run x)).

(** [const bashTestTemplate]. *)
Definition bashTestTemplate (name run cleanup : string) : string :=
  nl +:+ "test" +:+ name +:+ "() {" +:+ nl +:+
  run +:+ nl +:+
  cleanup +:+ "}".

(** [func (t *Test) BashString() string]: the text, and the test as the
    call leaves it ([t.Run = append(t.Run, "cd "+absDir)]). *)
Definition BashString `{Generator} (x : t) : string * t :=
  let absDir := filepath_Abs (Dir x) in
  let x' := mk (Dir x) (Name x) (Cleanup x) (Run x ++ ["cd " +:+ absDir]) in
  (bashTestTemplate (Name x')
     (Body_BashString (Run x') true)
     (Body_BashString (Cleanup x') false),
   x').

End Test.

(** ** Suite (suite.go) *)

Module Suite.

Section WithGenerator.

Context `{G : Generator}.

#[local] Unset Elimination Schemes.

(** [type Suite struct].  [Children] and [Parents] are slices of pointers in
    Go; no method here assigns through them, and each method follows one of
    the two only, so a suite carries the suites it reaches that way. *)
Inductive t : Type := mk {
  Dir : string;
  Location : string;
  Dependency : generator_Dependency;
  Cleanup : Body;
  Run : Body;
  Tests : list Test.t;
  Children : list t;
  Parents : list t;
  Deps : generator_Dependencies;
  DepsToSetup : generator_Dependencies
}.

#[local] Set Elimination Schemes.

(** [s.Name()], promoted from the embedded [Dependency]. *)
Definition Name (s : t) : string := Dependency_Name (Dependency s).

(** [s.Tests = tests]. *)
Definition set_Tests (s : t) (tests : list Test.t) : t :=
  mk (Dir s) (Location s) (Dependency s) (Cleanup s) (Run s) tests
     (Children s) (Parents s) (Deps s) (DepsToSetup s).

(** The title [generateChildrenTesting] gives a child. *)
Definition childTitle (child : t) : string :=
  let (_, title) := path_Split (Dir child) in
  strings_Title (nameRegex_ReplaceAllString title).

(** The body of [range .Suites] in [includedSuiteTemplate], for one
    element. *)
Definition includedSuite (title name : string) : string :=
  nl +:+ tab +:+ tab +:+ "s.Run(" +:+ dq +:+ title +:+ dq +:+ ", func() {" +:+ nl +:+
  tab +:+ tab +:+ tab +:+ "suite.Run(s.T(), &s." +:+ name +:+ "Suite)" +:+ nl +:+
  tab +:+ tab +:+ "})" +:+ nl +:+
  tab.

(** [const includedSuiteTemplate]. *)
Definition includedSuiteTemplate (suites : list (string * string)) : string :=
  nl +:+ tab +:+
  String.concat EmptyString (map (fun d => includedSuite (fst d) (snd d)) suites) +:+
  nl.

(** [func (s *Suite) generateChildrenTesting() string]. *)
Definition generateChildrenTesting (s : t) : string :=
  match Children s with
  | [] => EmptyString
  | _ :: _ =>
      includedSuiteTemplate
        (map (fun child => (childTitle child, Name child)) (Children s))
  end.

(** [const suiteTemplate].  [or .Run .Cleanup] and [.TestIncludedSuites]
    are strings, true when not empty. *)
Definition suiteTemplate
  (dir name cleanup run fields imports setup included : string) : string :=
  "// Code generated by gotestmd DO NOT EDIT." +:+ nl +:+
  "package " +:+ name +:+ nl +:+
  nl +:+
  "import(" +:+ nl +:+
  tab +:+ imports +:+ nl +:+
  ")" +:+ nl +:+
  nl +:+
  "type Suite struct {" +:+ nl +:+
  tab +:+ fields +:+ nl +:+
  "}" +:+ nl +:+
  nl +:+
  "func (s *Suite) SetupSuite() {" +:+ nl +:+
  tab +:+ setup +:+ nl +:+
  tab +:+
  (if (0 <? len run)%nat || (0 <? len cleanup)%nat
   then nl +:+ tab +:+ "r := s.Runner(" +:+ dq +:+ dir +:+ dq +:+ ")" +:+ nl +:+ tab
   else EmptyString) +:+ nl +:+
  tab +:+ cleanup +:+ nl +:+
  tab +:+ run +:+ nl +:+
  nl +:+
  (if (0 <? len included)%nat
   then nl +:+ tab +:+ "s.RunIncludedSuites()" +:+ nl +:+
        "}" +:+ nl +:+
        nl +:+
        "func (s *Suite) RunIncludedSuites() {" +:+ nl +:+
        tab +:+ included +:+ nl
   else EmptyString) +:+ nl +:+
  "}" +:+ nl.

(** What [String] has written to [result] when [tmpl.Execute] returns. *)
Definition header (s : t) : string :=
  suiteTemplate (Dir s) (Name s)
    (wrap_cleanup (Body_String (Cleanup s)))
    (Body_String (Run s))
    (Dependencies_FieldsString (Deps s))
    (Dependencies_String (Deps s))
    (Dependencies_SetupString (DepsToSetup s))
    (generateChildrenTesting s).

(** The tests [String] ranges over, after
    [if len(s.Tests) == 0 { s.Tests = append(s.Tests, new(Test)) }]. *)
Definition defaultTests (tests : list Test.t) : list Test.t :=
  match tests with
  | [] => [Test.new]
  | _ :: _ => tests
  end.

(** The text of [result] before the final trimming: the header, then each
    test's [String] in turn. *)
Definition String_raw (s : t) : string :=
  header s +:+
  String.concat EmptyString (map Test.String_ (defaultTests (Tests s))).

(** [func (s *Suite) String() string]: the text, and the suite as the call
    leaves it. *)
Definition String_ (s : t) : string * t :=
  (spaceRegex_ReplaceAllString (strings_TrimSpace (String_raw s)) nl,
   set_Tests s (defaultTests (Tests s))).

(** [func (s *Suite) getCompleteSetup() []string]. *)
Fixpoint getCompleteSetup (s : t) : list string :=
  match s with
  | mk dir _ _ _ run _ _ parents _ _ =>
      flat_map getCompleteSetup parents ++
      ["cd " +:+ filepath_Abs dir] ++
      run
  end.

(** [func (s *Suite) getCompleteCleanup() []string].  [append] may write
    past the length of [s.Cleanup] into its spare capacity; what the slice
    [s.Cleanup] reads is unchanged. *)
Fixpoint getCompleteCleanup (s : t) : list string :=
  match s with
  | mk _ _ _ cleanup _ _ _ parents _ _ =>
      cleanup ++ flat_map getCompleteCleanup parents
  end.

(** [const bashSuiteTemplate]. *)
Definition bashSuiteTemplate (setup cleanup : string) : string :=
  nl +:+
  "function setup() {" +:+ nl +:+
  tab +:+ setup +:+ nl +:+
  "}" +:+ nl +:+
  nl +:+
  "function cleanup() {" +:+ nl +:+
  tab +:+ cleanup +:+ nl +:+
  "}" +:+ nl +:+
  "setup()" +:+ nl +:+
  "cleanup()" +:+ nl.

(** [func (s *Suite) BashString() string].  It assigns to no field. *)
Definition BashString (s : t) : string :=
  let setup := strings_Join (getCompleteSetup s) nl in
  let cleanup := strings_Join (getCompleteCleanup s) nl in
  spaceRegex_ReplaceAllString
    (strings_TrimSpace (bashSuiteTemplate setup cleanup)) nl.

(** The suites [getCompleteSetup] visits above [s], in the order it visits
    them: the first parent's own ancestors, that parent, then the next
    parent's. *)
Fixpoint ancestors (s : t) : list t :=
  match s with
  | mk _ _ _ _ _ _ _ parents _ _ =>
      flat_map (fun p => ancestors p ++ [p]) parents
  end.

(** The suites [getCompleteCleanup] visits above [s], in the order it
    visits them: each parent before that parent's own ancestors. *)
Fixpoint ancestorsNearestFirst (s : t) : list t :=
  match s with
  | mk _ _ _ _ _ _ _ parents _ _ =>
      flat_map (fun p => p :: ancestorsNearestFirst p) parents
  end.

(** What one suite contributes to a [setup]: the change to its directory,
    then its [Run] commands. *)
Definition ownSetup (s : t) : list string :=
  ("cd " +:+ filepath_Abs (Dir s)) :: Run s.

(** [s.Parents = parents] and [s.Run = run]. *)
Definition set_Parents (s : t) (parents : list t) : t :=
  mk (Dir s) (Location s) (Dependency s) (Cleanup s) (Run s) (Tests s)
     (Children s) parents (Deps s) (DepsToSetup s).

Definition set_Run (s : t) (run : Body) : t :=
  mk (Dir s) (Location s) (Dependency s) (Cleanup s) run (Tests s)
     (Children s) (Parents s) (Deps s) (DepsToSetup s).

(** A suite whose ancestors form a chain: at most one parent at each
    level. *)
Fixpoint isChain (s : t) : bool :=
  match s with
  | mk _ _ _ _ _ _ _ parents _ _ =>
      (length parents <=? 1)%nat && forallb isChain parents
  end.

End WithGenerator.

End Suite.

(** ** The command (gotestmd.go) *)

(** What the command does to the file system, in the order it does it. *)
Inductive event : Type :=
| MkdirAll (path : string)
| WriteFile (name content : string).

(** The errors [RunE] returns, by the call that makes them. *)
Inductive error : Type :=
| ErrBashWithoutMatch
| ErrCannotBuildExamples (cause : string)
| ErrRegexpCompile (cause : string)
| ErrCannotSaveSuite (name cause : string)
| ErrNoMatchesFound (pattern : string).

(** The text of each error. *)
Definition error_message (e : error) : string :=
  match e with
  | ErrBashWithoutMatch => "Flag --bash can be used only with flag --match"
  | ErrCannotBuildExamples cause => "cannot build examples: " +:+ cause
  | ErrRegexpCompile cause => cause
  | ErrCannotSaveSuite name cause =>
      "cannot save suite " +:+ name +:+ ", : " +:+ cause
  | ErrNoMatchesFound pattern => "No matches found for pattern: " +:+ pattern
  end.

(** [config.Config], as far as the command reads and assigns it. *)
Record Config : Type := mkConfig {
  InputDir : string;
  OutputDir : string;
  Bash : bool;
  Match : string
}.

(** What the command calls and [gotestmd.go] does not declare: the other
    packages of the repository ([config], [parser], [linker],
    [generator.Generate]), Go's [regexp] and the file system.

    [filepath_Walk root] is the calls [filepath.Walk] makes to its callback
    for as long as the callback returns nil: the path, and whether it is
    a directory, or [None] when the call carries an error.
    [os_WriteFile] answers with the error text when the write fails; it may
    depend on what was done before.  [generator_Generate] gives the suites
    it allocates and the pointers to them that it returns, as indices into
    these suites. *)
Class Command `{G : Generator} : Type := {
  config_FromArgs : list string -> Config;
  parser_Example : Type;
  parser_ParseFile : string -> option parser_Example;
  linker_LinkedExample : Type;
  linker_Link :
    string -> list parser_Example -> list linker_LinkedExample + string;
  generator_Generate :
    Config -> list linker_LinkedExample -> list Suite.t * list nat;
  Regexp : Type;
  regexp_Compile : string -> Regexp + string;
  Regexp_MatchString : Regexp -> string -> bool;
  Regexp_String : Regexp -> string;
  path_Join : string -> string -> string;
  filepath_Join : string -> string -> string;
  filepath_Walk : string -> list (string * option bool);
  os_WriteFile : list event -> string -> string -> option string
}.

Module Cmd.

(** How a call ends: it returns a value, returns an error, or dereferences
    a pointer to no suite. *)
Inductive outcome (A : Type) : Type :=
| Done (a : A)
| Failed (e : error)
| Panicked.

Arguments Done {A} a.
Arguments Failed {A} e.
Arguments Panicked {A}.

Section WithCommand.

Context `{C : Command}.

(** The suites in memory and the trace of file-system calls. *)
Record State : Type := mkState {
  heap : list Suite.t;
  log : list event
}.

Definition M (A : Type) : Type := State -> outcome A * State.

Definition ret {A : Type} (a : A) : M A := fun st => (Done a, st).

Definition bind {A B : Type} (m : M A) (k : A -> M B) : M B :=
  fun st =>
    match m st with
    | (Done a, st') => k a st'
    | (Failed e, st') => (Failed e, st')
    | (Panicked, st') => (Panicked, st')
    end.

Definition fail {A : Type} (e : error) : M A := fun st => (Failed e, st).

Notation "'do' x <- m ; k" := (bind m (fun x => k))
  (at level 10, x name, m at level 100, k at level 200).

(** [*p]. *)
Definition deref (p : nat) : M Suite.t :=
  fun st =>
    match heap st !! p with
    | Some s => (Done s, st)
    | None => (Panicked, st)
    end.

(** [*p = s]. *)
Definition assign (p : nat) (s : Suite.t) : M unit :=
  fun st => (Done tt, mkState (<[p := s]> (heap st)) (log st)).

(** [_ = os.MkdirAll(dir, os.ModePerm)]. *)
Definition os_MkdirAll (dir : string) : M unit :=
  fun st => (Done tt, mkState (heap st) (log st ++ [MkdirAll dir])).

(** [err := os.WriteFile(name, []byte(content), os.ModePerm)]. *)
Definition WriteFile_ (name content : string) : M (option string) :=
  fun st =>
    (Done (os_WriteFile (log st) name content),
     mkState (heap st) (log st ++ [WriteFile name content])).

(** [func processGoSuites(suites []*generator.Suite) error].
    [suite.String()] assigns to [suite.Tests]. *)
Fixpoint processGoSuites (suites : list nat) : M unit :=
  match suites with
  | [] => ret tt
  | p :: rest =>
      do suite <- deref p;
      let (dir, _) := filepath_Split (Suite.Location suite) in
      do _ <- os_MkdirAll dir;
      let (content, suite') := Suite.String_ suite in
      do _ <- assign p suite';
      do err <- WriteFile_ (Suite.Location suite') content;
      match err with
      | Some cause => fail (ErrCannotSaveSuite (Suite.Name suite') cause)
      | None => processGoSuites rest
      end
  end.

(** What the two loops of [processBashSuites] do with a suite they select,
    once they have assigned its tests: make the directory of its location,
    write its script there, and return the error if the write fails. *)
Definition save (suite : Suite.t) (content : string) : M unit :=
  let (dir, _) := filepath_Split (Suite.Location suite) in
  do _ <- os_MkdirAll dir;
  do err <- WriteFile_ (Suite.Location suite) content;
  match err with
  | Some cause => fail (ErrCannotSaveSuite (Suite.Name suite) cause)
  | None => ret tt
  end.

(** The first loop of [processBashSuites]: the suites whose name matches. *)
Fixpoint matchSuites (re : Regexp) (suites : list nat) (matchFound : bool)
  : M bool :=
  match suites with
  | [] => ret matchFound
  | p :: rest =>
      do suite <- deref p;
      if negb (Regexp_MatchString re (Suite.Name suite))
      then matchSuites re rest matchFound
      else
        let suite' := Suite.set_Tests suite [] in
        do _ <- assign p suite';
        do _ <- save suite' (Suite.BashString suite');
        matchSuites re rest true
  end.

(** The tests whose name matches, in their order ([matchedTests]). *)
Definition matchedTests (re : Regexp) (tests : list Test.t) : list Test.t :=
  List.filter (fun test => Regexp_MatchString re (Test.Name test)) tests.

(** The second loop of [processBashSuites]: the suites with a test whose
    name matches. *)
Fixpoint matchTests (re : Regexp) (suites : list nat) (matchFound : bool)
  : M bool :=
  match suites with
  | [] => ret matchFound
  | p :: rest =>
      do suite <- deref p;
      match matchedTests re (Suite.Tests suite) with
      | [] => matchTests re rest matchFound
      | matched =>
          let suite' := Suite.set_Tests suite matched in
          do _ <- assign p suite';
          do _ <- save suite' (Suite.BashString suite');
          matchTests re rest true
      end
  end.

(** [func processBashSuites(suites []*generator.Suite, matchRegex *regexp.Regexp) error]. *)
Definition processBashSuites (suites : list nat) (matchRegex : Regexp)
  : M unit :=
  do matchFound <- matchSuites matchRegex suites false;
  do matchFound <- matchTests matchRegex suites matchFound;
  if negb matchFound
  then fail (ErrNoMatchesFound (Regexp_String matchRegex))
  else ret tt.

(** [func getFilter(root string) func(string) bool]. *)
Definition getFilter (root : string) : string -> bool :=
  let ignored := [filepath_Join root ".git"] in
  fun s => existsb (fun line => strings_HasPrefix s line) ignored.

(** The callback of [getRecursiveDirectories] over the calls of the walk:
    a call with an error returns it, which ends the walk. *)
Fixpoint walkDirectories (isIgnored : string -> bool)
  (calls : list (string * option bool)) (result : list string)
  : list string :=
  match calls with
  | [] => result
  | (_, None) :: _ => result
  | (path, Some isDir) :: rest =>
      walkDirectories isIgnored rest
        (if isDir && negb (isIgnored path) then result ++ [path] else result)
  end.

(** [func getRecursiveDirectories(root string) []string]. *)
Definition getRecursiveDirectories (root : string) : list string :=
  walkDirectories (getFilter root) (filepath_Walk root) [].

(** The loop of [RunE] over the directories: the examples that parse. *)
Fixpoint parseExamples (dirs : list string) (examples : list parser_Example)
  : list parser_Example :=
  match dirs with
  | [] => examples
  | dir :: rest =>
      parseExamples rest
        (match parser_ParseFile (path_Join dir "README.md") with
         | Some ex => examples ++ [ex]
         | None => examples
         end)
  end.

(** [g.Generate(linkedExamples...)]: the suites it allocates go after the
    ones in memory. *)
Definition Generate (c : Config) (linked : list linker_LinkedExample)
  : M (list nat) :=
  fun st =>
    let (suites, pointers) := generator_Generate c linked in
    (Done (map (fun p => length (heap st) + p) pointers),
     mkState (heap st ++ suites) (log st)).

(** The [RunE] of the command [New] makes.  [flagMatch] is the value of the
    flag [match]; [flagBash] is what [GetBool] gives for the flag [bash], its
    value or [None] for an error. *)
Definition RunE (flagMatch : string) (flagBash : option bool)
  (args : list string) : M unit :=
  let match_ := flagMatch in
  let bash := match flagBash with Some value => value | None => false end in
  if bash && String.eqb match_ EmptyString
  then fail ErrBashWithoutMatch
  else
    let c0 := config_FromArgs args in
    let c := mkConfig (InputDir c0) (OutputDir c0) bash match_ in
    do _ <- os_MkdirAll (OutputDir c);
    let dirs := getRecursiveDirectories (InputDir c) in
    let examples := parseExamples dirs [] in
    match linker_Link (InputDir c) examples with
    | inr cause => fail (ErrCannotBuildExamples cause)
    | inl linkedExamples =>
        do suites <- Generate c linkedExamples;
        if negb bash
        then processGoSuites suites
        else
          match regexp_Compile match_ with
          | inr cause => fail (ErrRegexpCompile cause)
          | inl matchRegex => processBashSuites suites matchRegex
          end
    end.

End WithCommand.

End Cmd.

(** ** Statements about the selection of [processBashSuites] *)

Module Selection.

Section WithCommand.

Context `{C : Command}.

(** A suite is selected by its name or by the name of one of its tests. *)
Definition nameMatches (re : Regexp) (s : Suite.t) : bool :=
  Regexp_MatchString re (Suite.Name s).

Definition suiteMatches (re : Regexp) (s : Suite.t) : bool :=
  nameMatches re s
  || existsb (fun test => Regexp_MatchString re (Test.Name test)) (Suite.Tests s).

(** Some suite of [suites], or some test of one, matches. *)
Definition anyMatch (re : Regexp) (h : list Suite.t) (suites : list nat)
  : bool :=
  existsb (fun p => match h !! p with
                    | Some s => suiteMatches re s
                    | None => false
                    end) suites.

(** The tests [processBashSuites] leaves in a suite it has visited. *)
Definition selectedTests (re : Regexp) (s : Suite.t) : list Test.t :=
  if nameMatches re s then []
  else match Cmd.matchedTests re (Suite.Tests s) with
       | [] => Suite.Tests s
       | matched => matched
       end.

(** The two calls one [save] of a suite's script makes. *)
Definition scriptEvents (s : Suite.t) : list event :=
  [MkdirAll (fst (filepath_Split (Suite.Location s)));
   WriteFile (Suite.Location s) (Suite.BashString s)].

(** What the first loop writes for the suite at [p], and the second. *)
Definition writtenByName (re : Regexp) (h : list Suite.t) (p : nat)
  : list event :=
  match h !! p with
  | Some s => if nameMatches re s then scriptEvents s else []
  | None => []
  end.

Definition writtenByTests (re : Regexp) (h : list Suite.t) (p : nat)
  : list event :=
  match h !! p with
  | Some s =>
      if nameMatches re s then []
      else match Cmd.matchedTests re (Suite.Tests s) with
           | [] => []
           | _ :: _ => scriptEvents s
           end
  | None => []
  end.

(** The suite at an address the first loop has visited, and at one the
    second loop has. *)
Definition afterNames (re : Regexp) (s : Suite.t) : Suite.t :=
  if nameMatches re s then Suite.set_Tests s [] else s.

Definition afterTests (re : Regexp) (s : Suite.t) : Suite.t :=
  match Cmd.matchedTests re (Suite.Tests s) with
  | [] => s
  | matched => Suite.set_Tests s matched
  end.

(** What the second loop writes for the suite at [p] of the heap it
    starts from. *)
Definition writtenForTests (re : Regexp) (h : list Suite.t) (p : nat)
  : list event :=
  match h !! p with
  | Some s =>
      match Cmd.matchedTests re (Suite.Tests s) with
      | [] => []
      | _ :: _ => scriptEvents s
      end
  | None => []
  end.

(** The state after one pass of the body of a loop that selects the suite
    at [p]: it is stored with the tests [tests] and its script is saved. *)
Definition saved (st : Cmd.State) (p : nat) (s : Suite.t)
  (tests : list Test.t) : Cmd.State :=
  Cmd.mkState (<[p := Suite.set_Tests s tests]> (Cmd.heap st))
    (Cmd.log st ++ scriptEvents s).

(** The answer of the write in that pass. *)
Definition saveError (st : Cmd.State) (s : Suite.t) : option string :=
  os_WriteFile
    (Cmd.log st ++ [MkdirAll (fst (filepath_Split (Suite.Location s)))])
    (Suite.Location s) (Suite.BashString s).

End WithCommand.

End Selection.

(** ** Sample collaborators and inputs

    Stand-ins for what the sources leave open, to run the definitions on
    concrete inputs. *)

Module Sample.

(** Does [pattern] occur in [s]?  This is what a pattern without
    metacharacters matches. *)
Fixpoint occurs (pattern s : string) : bool :=
  String.prefix pattern s
  || match s with
     | EmptyString => false
     | String _ rest => occurs pattern rest
     end.

Definition generator : Generator := {|
  generator_Dependency := string;
  Dependency_Name := fun d => d;
  generator_Dependencies := list string;
  Dependencies_String := fun ds => String.concat nl ds;
  Dependencies_FieldsString := fun ds => String.concat nl ds;
  Dependencies_SetupString := fun ds => String.concat nl ds;
  Body_BashString := fun b _ => String.concat nl b;
  spaceRegex_ReplaceAllString := fun s _ => s;
  strings_TrimSpace := fun s => s;
  filepath_Abs := fun p => "/work/" +:+ p
|}.

#[local] Existing Instance generator.

(** A command whose input directory holds the directories [dirs], whose
    linker answers [link] and whose generator gives [generated]. *)
Definition command (dirs : list string)
  (link : list string -> list string + string)
  (generated : list Suite.t * list nat) : Command := {|
  config_FromArgs := fun args =>
    mkConfig (nth 0 args ".") (nth 1 args "out") false EmptyString;
  parser_Example := string;
  parser_ParseFile := fun name => Some name;
  linker_LinkedExample := string;
  linker_Link := fun _ examples => link examples;
  generator_Generate := fun _ _ => generated;
  Regexp := string;
  regexp_Compile := fun pattern => inl pattern;
  Regexp_MatchString := fun pattern s => occurs pattern s;
  Regexp_String := fun pattern => pattern;
  path_Join := fun a b => a +:+ "/" +:+ b;
  filepath_Join := fun a b => a +:+ "/" +:+ b;
  filepath_Walk := fun _ => map (fun d => (d, Some true)) dirs;
  os_WriteFile := fun _ _ _ => None
|}.

Definition suite (dir name : string) (cleanup run : Body)
  (tests : list Test.t) (parents : list Suite.t) : Suite.t :=
  Suite.mk dir ("out/" +:+ dir +:+ "/suite.sh") name cleanup run tests []
    parents [] [].

Definition test (name : string) : Test.t :=
  Test.mk "examples" name [] ["echo " +:+ name].

(** Selection: suite [A] with tests [T1] and [T2], suite [B] with test
    [T3]. *)
Definition A : Suite.t := suite "a" "A" [] [] [test "T1"; test "T2"] [].
Definition B : Suite.t := suite "b" "B" [] [] [test "T3"] [].

(** A chain root, mid, leaf. *)
Definition root : Suite.t := suite "root" "Root" ["undo r"] ["do r"] [] [].
Definition mid : Suite.t := suite "mid" "Mid" ["undo m"] ["do m"] [] [root].
Definition leaf : Suite.t := suite "leaf" "Leaf" ["undo l"] ["C"] [] [mid].

(** The command over the two suites of the selection, with a linker that
    succeeds and with one that reports a cycle. *)
Definition selectionCommand : Command :=
  command ["in"; "in/a"; "in/b"] (fun examples => inl examples) ([A; B], [0; 1]).

Definition cyclicCommand : Command :=
  command ["in"; "in/a"; "in/b"] (fun _ => inr "cycle at in/a") ([A; B], [0; 1]).

(** The state of a run that has not started, and the one in which the two
    suites of the selection are in memory and nothing is written yet. *)
Definition emptyState : Cmd.State := Cmd.mkState [] [].
Definition selectionState : Cmd.State := Cmd.mkState [A; B] [].

(** The selection with a pattern, from that state. *)
Definition select (pattern : string) : Cmd.outcome unit * Cmd.State :=
  Cmd.processBashSuites (C := selectionCommand) [0; 1] pattern selectionState.

(** The run [gotestmd --bash --match pattern in out], and the same with a
    linker that fails. *)
Definition bashRun (pattern : string) : Cmd.outcome unit * Cmd.State :=
  Cmd.RunE (C := selectionCommand) pattern (Some true) ["in"; "out"] emptyState.

Definition cyclicRun : Cmd.outcome unit * Cmd.State :=
  Cmd.RunE (C := cyclicCommand) "B" (Some true) ["in"; "out"] emptyState.

(** A child suite in the directory [my-example_case]. *)
Definition titledChild : Suite.t := suite "my-example_case" "Case" [] [] [] [].

End Sample.

(** ** Statements about the rest of the two files *)

Module Behaviour.

(** How often the byte [c] occurs in [s]. *)
Fixpoint occurrences (c : ascii) (s : string) : nat :=
  match s with
  | EmptyString => 0
  | String a rest => (if Ascii.eqb a c then 1 else 0) + occurrences c rest
  end.

(** What [Body.String] writes between the lines of a block. *)
Definition lineBreak : string := "+" +:+ dq +:+ bslash +:+ "n" +:+ dq +:+ "+".

(** A line between backquotes. *)
Definition quoted (line : string) : string := "`" +:+ line +:+ "`".

(** A test without commands. *)
Definition commandless (x : Test.t) : bool :=
  match Test.Cleanup x, Test.Run x with
  | [], [] => true
  | _, _ => false
  end.

(** The test that [n] calls of [Test.BashString] in a row leave. *)
Fixpoint afterBashStrings `{Generator} (n : nat) (x : Test.t) : Test.t :=
  match n with
  | O => x
  | S k => afterBashStrings k (snd (Test.BashString x))
  end.

(** The calls of a walk that come before its first call with an error. *)
Fixpoint callsBeforeError (calls : list (string * option bool))
  : list (string * option bool) :=
  match calls with
  | [] => []
  | (_, None) :: _ => []
  | call :: rest => call :: callsBeforeError rest
  end.

(** A call for a directory that the filter does not ignore. *)
Definition keeps (isIgnored : string -> bool) (call : string * option bool)
  : bool :=
  match snd call with
  | Some true => negb (isIgnored (fst call))
  | _ => false
  end.

(** Is the call to the file system a write? *)
Definition isWrite (e : event) : bool :=
  match e with
  | WriteFile _ _ => true
  | MkdirAll _ => false
  end.

Section WithCommand.

Context `{C : Command}.

(** A file system on which no write fails. *)
Definition acceptsEveryWrite : Prop :=
  forall trace name content, os_WriteFile trace name content = None.

(** The suite as [Suite.String] leaves it. *)
Definition rendered (s : Suite.t) : Suite.t := snd (Suite.String_ s).

(** The two calls one pass of [processGoSuites] makes for a suite, and for
    the suite at [p]. *)
Definition compiledEventsOf (s : Suite.t) : list event :=
  [MkdirAll (fst (filepath_Split (Suite.Location s)));
   WriteFile (Suite.Location s) (fst (Suite.String_ s))].

Definition compiledEvents (h : list Suite.t) (p : nat) : list event :=
  match h !! p with
  | Some s => compiledEventsOf s
  | None => []
  end.

(** The state after the pass for the suite [s] at [p], and the answer of
    the write in that pass. *)
Definition savedCompiled (st : Cmd.State) (p : nat) (s : Suite.t)
  : Cmd.State :=
  Cmd.mkState (<[p := rendered s]> (Cmd.heap st))
    (Cmd.log st ++ compiledEventsOf s).

Definition compiledError (st : Cmd.State) (s : Suite.t) : option string :=
  os_WriteFile
    (Cmd.log st ++ [MkdirAll (fst (filepath_Split (Suite.Location s)))])
    (Suite.Location s) (fst (Suite.String_ s)).

(** The pointers of [suites] all point to a suite. *)
Definition valid (h : list Suite.t) (suites : list nat) : Prop :=
  Forall (fun p => is_Some (h !! p)) suites.

(** The suite at [p] is selected by the pattern. *)
Definition selected (re : Regexp) (h : list Suite.t) (p : nat) : bool :=
  match h !! p with
  | Some s => Selection.suiteMatches re s
  | None => false
  end.

End WithCommand.

End Behaviour.

(** ** More sample inputs *)

Module Scenario.

#[local] Existing Instance Sample.generator.

(** Two suites that include the same third one. *)
Definition shared : Suite.t :=
  Sample.suite "shared" "Shared" ["undo s"] ["do s"] [] [].
Definition left : Suite.t :=
  Sample.suite "left" "Left" ["undo a"] ["do a"] [] [shared].
Definition right : Suite.t :=
  Sample.suite "right" "Right" ["undo b"] ["do b"] [] [shared].
Definition both : Suite.t :=
  Sample.suite "both" "Both" ["undo c"] ["do c"] [] [left; right].

(** A suite that includes [Sample.mid] and, after it, the root that
    [Sample.mid] includes. *)
Definition crossed : Suite.t :=
  Sample.suite "crossed" "Crossed" [] ["do x"] [] [Sample.mid; Sample.root].

(** A suite of two tests without commands. *)
Definition hollow : Suite.t :=
  Sample.suite "hollow" "Hollow" [] []
    [Test.mk "hollow" "First" [] []; Test.mk "hollow" "Second" [] []] [].

(** A walk that meets an error at its fourth call. *)
Definition brokenWalk : list (string * option bool) :=
  [("in", Some true); ("in/.github", Some true); ("in/README.md", Some false);
   ("in/locked", None); ("in/z", Some true)].

(** A command whose file system refuses the write of [refused]; the
    others are those of the selection. *)
Definition refusing (refused : string) : Command := {|
  config_FromArgs := config_FromArgs (Command := Sample.selectionCommand);
  parser_Example := string;
  parser_ParseFile := fun name =>
    if String.prefix "in/b" name then None else Some name;
  linker_LinkedExample := string;
  linker_Link := fun _ examples => inl examples;
  generator_Generate := fun _ _ => ([Sample.A; Sample.B], [0; 1]);
  Regexp := string;
  regexp_Compile := fun pattern =>
    if String.prefix "(" pattern then inr "missing closing )" else inl pattern;
  Regexp_MatchString := fun pattern s => Sample.occurs pattern s;
  Regexp_String := fun pattern => pattern;
  path_Join := fun a b => a +:+ "/" +:+ b;
  filepath_Join := fun a b => a +:+ "/" +:+ b;
  filepath_Walk := fun _ => brokenWalk;
  os_WriteFile := fun _ name _ =>
    if String.eqb name refused then Some "permission denied" else None
|}.


(** The two suites of the selection written in the compiled format, on
    the file system of the selection and on one that refuses the second
    file. *)
Definition compile : Cmd.outcome unit * Cmd.State :=
  Cmd.processGoSuites (C := Sample.selectionCommand) [0; 1]
    Sample.selectionState.

Definition compileRefused : Cmd.outcome unit * Cmd.State :=
  Cmd.processGoSuites (C := refusing "out/b/suite.sh") [0; 1]
    Sample.selectionState.

(** The run [gotestmd in out], on the two file systems, and the run
    [gotestmd --bash --match "(" in out]. *)
Definition compiledRun : Cmd.outcome unit * Cmd.State :=
  Cmd.RunE (C := Sample.selectionCommand) EmptyString (Some false)
    ["in"; "out"] Sample.emptyState.

Definition compiledRunRefused : Cmd.outcome unit * Cmd.State :=
  Cmd.RunE (C := refusing "out/b/suite.sh") EmptyString None
    ["in"; "out"] Sample.emptyState.

Definition badPatternRun : Cmd.outcome unit * Cmd.State :=
  Cmd.RunE (C := refusing "out/b/suite.sh") "(" (Some true)
    ["in"; "out"] Sample.emptyState.

End Scenario.

(** * Properties *)

(** ** Text helpers *)

Lemma is_word_not_separator (c : ascii) : is_word c = true -> isSeparator c = false.
Proof. unfold isSeparator. now intros ->. Qed.

(** After a byte that is no separator, [strings.Title] leaves a run of word
    bytes as it is. *)
Lemma Title_from_word (s : string) :
  forall prev, is_word prev = true -> all_word s = true -> Title_from prev s = s.
Proof.
  induction s as [|c s IH]; intros prev Hprev Hall; simpl in *.
  - reflexivity.
  - apply andb_prop in Hall as [Hc Hs].
    rewrite (is_word_not_separator _ Hprev), (IH c Hc Hs). reflexivity.
Qed.

Lemma strings_Title_word (s : string) :
  all_word s = true -> strings_Title s = capitalizeFirst s.
Proof.
  destruct s as [|c s]; simpl; intros Hall.
  - reflexivity.
  - apply andb_prop in Hall as [Hc Hs].
    unfold strings_Title. simpl. now rewrite (Title_from_word s c Hc Hs).
Qed.

(** Whatever it is given, the replacement returns word bytes only. *)
Lemma nameRegex_replace_word (s : string) :
  forall skip, all_word (nameRegex_replace skip s) = true.
Proof.
  induction s as [|c s IH]; intros skip; simpl.
  - reflexivity.
  - destruct skip as [|k]; [|apply IH].
    destruct (is_word c) eqn:Hc; simpl; rewrite IH.
    + now rewrite Hc.
    + reflexivity.
Qed.

(** On word bytes the replacement changes nothing. *)
Lemma nameRegex_replace_id (s : string) :
  all_word s = true -> nameRegex_replace 0 s = s.
Proof.
  induction s as [|c s IH]; simpl; intros Hall.
  - reflexivity.
  - apply andb_prop in Hall as [Hc Hs]. now rewrite Hc, IH.
Qed.

(** ** Tests *)

(** C10: a test whose Run and Cleanup bodies are both empty renders, in the
    compiled format, as the nameless placeholder
    [func (s *Suite) Test() {}], whatever its Name and Dir. *)
Theorem Test_String_without_commands (x : Test.t) :
  Test.Cleanup x = [] ->
  Test.Run x = [] ->
  Test.String_ x = "func (s *Suite) Test() {}".
Proof.
  intros Hcleanup Hrun. unfold Test.String_. now rewrite Hcleanup, Hrun.
Qed.

Lemma Test_String_without_commands_witness :
  Test.String_ (Test.mk "examples/feature" "Feature" [] [])
  = "func (s *Suite) Test() {}".
Proof.
  apply (Test_String_without_commands (Test.mk "examples/feature" "Feature" [] []));
    reflexivity.
Defined.

Lemma Test_String_new : Test.String_ Test.new = Test.emptyTest.
Proof. reflexivity. Qed.

(** ** Suites *)

Section SuiteFacts.

Context `{G : Generator}.

(** Induction over a suite and the suites above it. *)
Lemma Suite_parents_ind (P : Suite.t -> Prop)
  (step : forall s, Forall P (Suite.Parents s) -> P s) :
  forall s, P s.
Proof.
  fix IH 1. intros s. apply step.
  destruct s as [dir loc dep cleanup run tests children parents deps setup].
  simpl. induction parents as [|p parents IHparents]; constructor.
  - apply IH.
  - exact IHparents.
Qed.

Lemma set_Tests_same (s : Suite.t) : Suite.set_Tests s (Suite.Tests s) = s.
Proof. now destruct s. Qed.

Lemma set_Tests_twice (s : Suite.t) (tests tests' : list Test.t) :
  Suite.set_Tests (Suite.set_Tests s tests) tests' = Suite.set_Tests s tests'.
Proof. reflexivity. Qed.

Lemma defaultTests_twice (tests : list Test.t) :
  Suite.defaultTests (Suite.defaultTests tests) = Suite.defaultTests tests.
Proof. now destruct tests. Qed.

Lemma defaultTests_length (tests : list Test.t) :
  1 <= length (Suite.defaultTests tests).
Proof. destruct tests; simpl; lia. Qed.

(** The header reads no test. *)
Lemma header_set_Tests (s : Suite.t) (tests : list Test.t) :
  Suite.header (Suite.set_Tests s tests) = Suite.header s.
Proof. reflexivity. Qed.

(** Neither does the script of the shell format. *)
Lemma getCompleteSetup_set_Tests (s : Suite.t) (tests : list Test.t) :
  Suite.getCompleteSetup (Suite.set_Tests s tests) = Suite.getCompleteSetup s.
Proof. now destruct s. Qed.

Lemma getCompleteCleanup_set_Tests (s : Suite.t) (tests : list Test.t) :
  Suite.getCompleteCleanup (Suite.set_Tests s tests)
  = Suite.getCompleteCleanup s.
Proof. now destruct s. Qed.

Lemma BashString_set_Tests (s : Suite.t) (tests : list Test.t) :
  Suite.BashString (Suite.set_Tests s tests) = Suite.BashString s.
Proof.
  unfold Suite.BashString.
  now rewrite getCompleteSetup_set_Tests, getCompleteCleanup_set_Tests.
Qed.

(** C7: the compiled format of a suite with zero declared tests holds
    exactly one test unit, the empty placeholder: the suite is left with the
    one synthesized test, the units rendered are the placeholder alone, and
    the text is the header followed by it. *)
Theorem Suite_String_without_tests (s : Suite.t) :
  Suite.Tests s = [] ->
  Suite.Tests (snd (Suite.String_ s)) = [Test.new]
  /\ map Test.String_ (Suite.Tests (snd (Suite.String_ s)))
     = ["func (s *Suite) Test() {}"]
  /\ Suite.String_raw s = Suite.header s +:+ "func (s *Suite) Test() {}"
  /\ fst (Suite.String_ s)
     = spaceRegex_ReplaceAllString
         (strings_TrimSpace
            (Suite.header s +:+ "func (s *Suite) Test() {}")) nl.
Proof.
  intros Htests. unfold Suite.String_, Suite.String_raw. simpl.
  rewrite Htests. simpl. repeat split; reflexivity.
Qed.

(** Every suite renders at least one test unit. *)
Lemma Suite_String_units (s : Suite.t) :
  1 <= length (map Test.String_ (Suite.Tests (snd (Suite.String_ s)))).
Proof. simpl. rewrite length_map. apply defaultTests_length. Qed.

(** C8, as the code has it: rendering a suite in the compiled format twice
    gives the same text both times; the first rendering leaves the suite as
    it was but for the placeholder test it stores in a suite with zero
    tests, the second changes nothing more; the shell format of the suite is
    the same before and after. *)
Theorem Suite_String_twice (s : Suite.t) :
  let first := Suite.String_ s in
  let second := Suite.String_ (snd first) in
  fst second = fst first
  /\ snd second = snd first
  /\ snd first
     = Suite.set_Tests s
         (match Suite.Tests s with [] => [Test.new] | _ :: _ => Suite.Tests s end)
  /\ (Suite.Tests s = [] \/ snd first = s)
  /\ Suite.BashString (snd first) = Suite.BashString s.
Proof.
  simpl. unfold Suite.String_raw.
  rewrite header_set_Tests. simpl. rewrite defaultTests_twice.
  repeat split.
  - destruct (Suite.Tests s) eqn:Htests; [now left | right].
    simpl. rewrite <- Htests. apply set_Tests_same.
  - apply BashString_set_Tests.
Qed.

(** C6: the title of a child in the nested-invocation block is the final
    segment of the child's directory with every non-identifier character
    replaced by an underscore and the first character in title case; the
    block holds it as it is, beside the child's name; a child directory
    [my-example_case] gives [My_example_case]. *)
Theorem childTitle_of_directory (child : Suite.t) :
  Suite.childTitle child
  = capitalizeFirst
      (nameRegex_ReplaceAllString (snd (path_Split (Suite.Dir child))))
  /\ all_word (Suite.childTitle child) = true
  /\ (forall parent,
        Suite.Children parent = [child] ->
        Suite.generateChildrenTesting parent
        = Suite.includedSuiteTemplate
            [(Suite.childTitle child, Suite.Name child)])
  /\ (Suite.Dir child = "my-example_case" ->
      Suite.childTitle child = "My_example_case").
Proof.
  assert (Htitle : Suite.childTitle child
    = capitalizeFirst
        (nameRegex_ReplaceAllString (snd (path_Split (Suite.Dir child))))).
  { unfold Suite.childTitle. destruct (path_Split (Suite.Dir child)) as [d f].
    simpl. apply strings_Title_word, nameRegex_replace_word. }
  repeat split.
  - exact Htitle.
  - rewrite Htitle. unfold nameRegex_ReplaceAllString.
    pose proof (nameRegex_replace_word (snd (path_Split (Suite.Dir child))) 0) as Hw.
    destruct (nameRegex_replace 0 (snd (path_Split (Suite.Dir child)))) as [|c r];
      simpl in *; [reflexivity|].
    apply andb_prop in Hw as [Hc Hr]. rewrite Hr, andb_true_r.
    unfold unicode_ToTitle. destruct (is_lower c) eqn:Hlow; [|exact Hc].
    clear -Hlow. destruct c as [[] [] [] [] [] [] [] []]; try discriminate; reflexivity.
  - intros parent Hchildren. unfold Suite.generateChildrenTesting.
    now rewrite Hchildren.
  - intros Hdir. unfold Suite.childTitle. now rewrite Hdir.
Qed.

(** [getCompleteSetup] and [getCompleteCleanup], one level unfolded. *)
Lemma getCompleteSetup_unfold (s : Suite.t) :
  Suite.getCompleteSetup s
  = flat_map Suite.getCompleteSetup (Suite.Parents s)
    ++ ["cd " +:+ filepath_Abs (Suite.Dir s)] ++ Suite.Run s.
Proof. now destruct s. Qed.

Lemma getCompleteCleanup_unfold (s : Suite.t) :
  Suite.getCompleteCleanup s
  = Suite.Cleanup s ++ flat_map Suite.getCompleteCleanup (Suite.Parents s).
Proof. now destruct s. Qed.

Lemma ancestors_unfold (s : Suite.t) :
  Suite.ancestors s
  = flat_map (fun p => Suite.ancestors p ++ [p]) (Suite.Parents s).
Proof. now destruct s. Qed.

Lemma ancestorsNearestFirst_unfold (s : Suite.t) :
  Suite.ancestorsNearestFirst s
  = flat_map (fun p => p :: Suite.ancestorsNearestFirst p) (Suite.Parents s).
Proof. now destruct s. Qed.

Lemma isChain_unfold (s : Suite.t) :
  Suite.isChain s
  = (length (Suite.Parents s) <=? 1)%nat
    && forallb Suite.isChain (Suite.Parents s).
Proof. now destruct s. Qed.

(** The setup is every visited ancestor's contribution, in the order of
    [ancestors], then the suite's own. *)
Lemma getCompleteSetup_ancestors (s : Suite.t) :
  Suite.getCompleteSetup s
  = flat_map Suite.ownSetup (Suite.ancestors s) ++ Suite.ownSetup s.
Proof.
  induction s as [s IH] using Suite_parents_ind.
  rewrite getCompleteSetup_unfold, ancestors_unfold. unfold Suite.ownSetup at 2.
  simpl. f_equal.
  induction IH as [|p parents Hp _ IHparents]; simpl.
  - reflexivity.
  - rewrite Hp, IHparents, !flat_map_app. simpl.
    now rewrite app_nil_r, <- !app_assoc.
Qed.

(** The cleanup is the suite's own commands, then every visited ancestor's,
    in the order of [ancestorsNearestFirst]. *)
Lemma getCompleteCleanup_ancestors (s : Suite.t) :
  Suite.getCompleteCleanup s
  = flat_map Suite.Cleanup (s :: Suite.ancestorsNearestFirst s).
Proof.
  induction s as [s IH] using Suite_parents_ind.
  rewrite getCompleteCleanup_unfold, ancestorsNearestFirst_unfold.
  simpl. f_equal.
  induction IH as [|p parents Hp _ IHparents]; simpl.
  - reflexivity.
  - rewrite Hp, IHparents, !flat_map_app. simpl. now rewrite <- app_assoc.
Qed.

(** On a chain the two orders are the reverse of each other. *)
Lemma ancestorsNearestFirst_chain (s : Suite.t) :
  Suite.isChain s = true ->
  Suite.ancestorsNearestFirst s = rev (Suite.ancestors s).
Proof.
  induction s as [s IH] using Suite_parents_ind.
  rewrite isChain_unfold, ancestorsNearestFirst_unfold, ancestors_unfold.
  intros Hchain. apply andb_prop in Hchain as [Hlen Hall].
  destruct (Suite.Parents s) as [|p [|q parents]]; simpl in *.
  - reflexivity.
  - apply Forall_inv in IH. rewrite andb_true_r in Hall.
    rewrite !app_nil_r, rev_app_distr, (IH Hall). reflexivity.
  - discriminate.
Qed.

(** C3, as the code has it: the [setup] of the shell format holds, for each
    suite above this one, a change to that suite's directory followed by
    that suite's Run commands, then the change to this suite's directory,
    then this suite's own Run commands.  The suites above come in the order
    the code visits them, each parent's own ancestors before that parent,
    which on a chain is from the root down.  For a chain root, mid, leaf
    whose leaf declares the Run command [C] it is: the change to root's
    directory, root's Run commands, the change to mid's directory, mid's
    Run commands, the change to leaf's directory, then [C]. *)
Theorem getCompleteSetup_cd_per_ancestor (s : Suite.t) :
  Suite.getCompleteSetup s
  = flat_map
      (fun above => ("cd " +:+ filepath_Abs (Suite.Dir above)) :: Suite.Run above)
      (Suite.ancestors s)
    ++ ["cd " +:+ filepath_Abs (Suite.Dir s)] ++ Suite.Run s
  /\ Suite.ancestors s
     = flat_map (fun p => Suite.ancestors p ++ [p]) (Suite.Parents s)
  /\ (Suite.isChain s = true ->
      Suite.ancestors s = rev (Suite.ancestorsNearestFirst s))
  /\ forall (root mid : Suite.t) (C : string),
       let root' := Suite.set_Parents root [] in
       let mid' := Suite.set_Parents mid [root'] in
       let leaf := Suite.set_Parents (Suite.set_Run s [C]) [mid'] in
       Suite.ancestors leaf = [root'; mid']
       /\ Suite.getCompleteSetup leaf
          = ("cd " +:+ filepath_Abs (Suite.Dir root)) :: Suite.Run root
            ++ ("cd " +:+ filepath_Abs (Suite.Dir mid)) :: Suite.Run mid
            ++ ["cd " +:+ filepath_Abs (Suite.Dir s); C].
Proof.
  split; [apply getCompleteSetup_ancestors|].
  split; [apply ancestors_unfold|].
  split.
  - intros Hchain. rewrite (ancestorsNearestFirst_chain s Hchain).
    now rewrite rev_involutive.
  - intros root mid C. simpl. rewrite !app_nil_r.
    split; [reflexivity|]. now rewrite <- !app_assoc.
Qed.

(** C2, as the code has it: the [cleanup] of the shell format is the suite's
    own cleanup commands, then its ancestors' from the nearest to the root,
    which on a chain is the reverse of the order [setup] takes the suites
    in. *)
Theorem getCompleteCleanup_nearest_first (s : Suite.t) :
  Suite.isChain s = true ->
  Suite.getCompleteCleanup s
  = Suite.Cleanup s ++ flat_map Suite.Cleanup (Suite.ancestorsNearestFirst s)
  /\ Suite.ancestorsNearestFirst s = rev (Suite.ancestors s)
  /\ Suite.getCompleteCleanup s
     = flat_map Suite.Cleanup (rev (Suite.ancestors s ++ [s])).
Proof.
  intros Hchain.
  pose proof (getCompleteCleanup_ancestors s) as Hcleanup.
  pose proof (ancestorsNearestFirst_chain s Hchain) as Horder.
  repeat split.
  - exact Hcleanup.
  - exact Horder.
  - rewrite Hcleanup, Horder, rev_app_distr. reflexivity.
Qed.

End SuiteFacts.

(** ** The command *)

Section CommandFacts.

Context `{C : Command}.

Lemma save_run (s : Suite.t) (content : string) (st : Cmd.State) :
  Cmd.save s content st
  = (match os_WriteFile
             (Cmd.log st ++ [MkdirAll (fst (filepath_Split (Suite.Location s)))])
             (Suite.Location s) content with
     | Some cause => Cmd.Failed (ErrCannotSaveSuite (Suite.Name s) cause)
     | None => Cmd.Done tt
     end,
     Cmd.mkState (Cmd.heap st)
       (Cmd.log st ++ [MkdirAll (fst (filepath_Split (Suite.Location s)));
                       WriteFile (Suite.Location s) content])).
Proof.
  unfold Cmd.save. destruct (filepath_Split (Suite.Location s)) as [dir file].
  unfold Cmd.bind, Cmd.os_MkdirAll, Cmd.WriteFile_, Cmd.fail, Cmd.ret. simpl.
  rewrite <- app_assoc. simpl.
  now destruct (os_WriteFile _ _ _).
Qed.

(** One pass of the first loop. *)
Lemma matchSuites_cons (re : Regexp) (p : nat) (rest : list nat) (b : bool)
  (st : Cmd.State) :
  Cmd.matchSuites re (p :: rest) b st
  = match Cmd.heap st !! p with
    | None => (Cmd.Panicked, st)
    | Some s =>
        if Selection.nameMatches re s
        then match Selection.saveError st s with
             | Some cause =>
                 (Cmd.Failed (ErrCannotSaveSuite (Suite.Name s) cause),
                  Selection.saved st p s [])
             | None => Cmd.matchSuites re rest true (Selection.saved st p s [])
             end
        else Cmd.matchSuites re rest b st
    end.
Proof.
  simpl. unfold Cmd.bind at 1. unfold Cmd.deref.
  destruct (Cmd.heap st !! p) as [s|]; [|reflexivity].
  unfold Selection.nameMatches.
  destruct (Regexp_MatchString re (Suite.Name s)); simpl; [|reflexivity].
  unfold Cmd.bind, Cmd.assign. rewrite save_run. simpl.
  rewrite BashString_set_Tests.
  unfold Selection.saveError, Selection.saved, Selection.scriptEvents. simpl.
  now destruct (os_WriteFile _ _ _).
Qed.

(** One pass of the second loop. *)
Lemma matchTests_cons (re : Regexp) (p : nat) (rest : list nat) (b : bool)
  (st : Cmd.State) :
  Cmd.matchTests re (p :: rest) b st
  = match Cmd.heap st !! p with
    | None => (Cmd.Panicked, st)
    | Some s =>
        match Cmd.matchedTests re (Suite.Tests s) with
        | [] => Cmd.matchTests re rest b st
        | matched =>
            match Selection.saveError st s with
            | Some cause =>
                (Cmd.Failed (ErrCannotSaveSuite (Suite.Name s) cause),
                 Selection.saved st p s matched)
            | None =>
                Cmd.matchTests re rest true (Selection.saved st p s matched)
            end
        end
    end.
Proof.
  simpl. unfold Cmd.bind at 1. unfold Cmd.deref.
  destruct (Cmd.heap st !! p) as [s|]; [|reflexivity].
  destruct (Cmd.matchedTests re (Suite.Tests s)) as [|t matched]; [reflexivity|].
  unfold Cmd.bind, Cmd.assign. rewrite save_run. simpl.
  rewrite BashString_set_Tests.
  unfold Selection.saveError, Selection.saved, Selection.scriptEvents. simpl.
  now destruct (os_WriteFile _ _ _).
Qed.

(** *** What the loops read is not what they assign *)

Lemma nameMatches_set_Tests (re : Regexp) (s : Suite.t) (tests : list Test.t) :
  Selection.nameMatches re (Suite.set_Tests s tests)
  = Selection.nameMatches re s.
Proof. reflexivity. Qed.

Lemma scriptEvents_set_Tests (s : Suite.t) (tests : list Test.t) :
  Selection.scriptEvents (Suite.set_Tests s tests) = Selection.scriptEvents s.
Proof.
  unfold Selection.scriptEvents. now rewrite BashString_set_Tests.
Qed.

Lemma matchedTests_twice (re : Regexp) (tests : list Test.t) :
  Cmd.matchedTests re (Cmd.matchedTests re tests) = Cmd.matchedTests re tests.
Proof.
  unfold Cmd.matchedTests. induction tests as [|t tests IH]; simpl.
  - reflexivity.
  - destruct (Regexp_MatchString re (Test.Name t)) eqn:Ht; simpl.
    + now rewrite Ht, IH.
    + exact IH.
Qed.

Lemma matchedTests_nil (re : Regexp) (tests : list Test.t) :
  Cmd.matchedTests re tests = []
  <-> existsb (fun t => Regexp_MatchString re (Test.Name t)) tests = false.
Proof.
  unfold Cmd.matchedTests. induction tests as [|t tests IH]; simpl.
  - tauto.
  - destruct (Regexp_MatchString re (Test.Name t)); simpl.
    + split; discriminate.
    + exact IH.
Qed.

Lemma afterNames_twice (re : Regexp) (s : Suite.t) :
  Selection.afterNames re (Selection.afterNames re s)
  = Selection.afterNames re s.
Proof.
  unfold Selection.afterNames.
  destruct (Selection.nameMatches re s) eqn:Hs.
  - now rewrite nameMatches_set_Tests, Hs.
  - now rewrite Hs.
Qed.

Lemma afterTests_twice (re : Regexp) (s : Suite.t) :
  Selection.afterTests re (Selection.afterTests re s)
  = Selection.afterTests re s.
Proof.
  unfold Selection.afterTests.
  destruct (Cmd.matchedTests re (Suite.Tests s)) as [|t matched] eqn:Hs.
  - now rewrite Hs.
  - assert (Hid : Cmd.matchedTests re (t :: matched) = t :: matched)
      by (rewrite <- Hs; apply matchedTests_twice).
    cbn [Suite.Tests Suite.set_Tests]. now rewrite Hid.
Qed.

(** The heap after a pass that selects the suite at [p]. *)
Lemma lookup_saved (st : Cmd.State) (p q : nat) (s : Suite.t)
  (tests : list Test.t) :
  Cmd.heap st !! p = Some s ->
  Cmd.heap (Selection.saved st p s tests) !! q
  = if decide (q = p) then Some (Suite.set_Tests s tests)
    else Cmd.heap st !! q.
Proof.
  intros Hp. simpl. destruct (decide (q = p)) as [->|Hne].
  - apply list_lookup_insert_eq. eapply lookup_lt_Some, Hp.
  - apply list_lookup_insert_ne. congruence.
Qed.

Lemma log_saved (st : Cmd.State) (p : nat) (s : Suite.t)
  (tests : list Test.t) :
  Cmd.log (Selection.saved st p s tests)
  = Cmd.log st ++ Selection.scriptEvents s.
Proof. reflexivity. Qed.

Lemma existsb_pointwise {A : Type} (f g : A -> bool) (l : list A) :
  (forall x, f x = g x) -> existsb f l = existsb g l.
Proof.
  intros Hfg. induction l as [|x l IH]; simpl; [reflexivity|].
  now rewrite Hfg, IH.
Qed.

(** *** Errors of the loops *)

(** A loop that returns an error returns the one of a failed write. *)
Lemma matchSuites_Failed (re : Regexp) (suites : list nat) :
  forall b st e st',
    Cmd.matchSuites re suites b st = (Cmd.Failed e, st') ->
    exists name cause, e = ErrCannotSaveSuite name cause.
Proof.
  induction suites as [|p rest IH]; intros b st e st' Hrun.
  - discriminate.
  - rewrite matchSuites_cons in Hrun.
    destruct (Cmd.heap st !! p) as [s|]; [|discriminate].
    destruct (Selection.nameMatches re s); [|now apply IH in Hrun].
    destruct (Selection.saveError st s) as [cause|]; [|now apply IH in Hrun].
    injection Hrun as <- _. now exists (Suite.Name s), cause.
Qed.

Lemma matchTests_Failed (re : Regexp) (suites : list nat) :
  forall b st e st',
    Cmd.matchTests re suites b st = (Cmd.Failed e, st') ->
    exists name cause, e = ErrCannotSaveSuite name cause.
Proof.
  induction suites as [|p rest IH]; intros b st e st' Hrun.
  - discriminate.
  - rewrite matchTests_cons in Hrun.
    destruct (Cmd.heap st !! p) as [s|]; [|discriminate].
    destruct (Cmd.matchedTests re (Suite.Tests s)); [now apply IH in Hrun|].
    destruct (Selection.saveError st s) as [cause|]; [|now apply IH in Hrun].
    injection Hrun as <- _. now exists (Suite.Name s), cause.
Qed.

(** *** Loops that select nothing *)

Lemma matchSuites_nothing (re : Regexp) (suites : list nat) (b : bool)
  (st : Cmd.State) :
  Forall (fun p => exists s, Cmd.heap st !! p = Some s
                             /\ Selection.nameMatches re s = false) suites ->
  Cmd.matchSuites re suites b st = (Cmd.Done b, st).
Proof.
  induction 1 as [|p rest (s & Hp & Hs) _ IH]; [reflexivity|].
  now rewrite matchSuites_cons, Hp, Hs.
Qed.

Lemma matchTests_nothing (re : Regexp) (suites : list nat) (b : bool)
  (st : Cmd.State) :
  Forall (fun p => exists s, Cmd.heap st !! p = Some s
                             /\ Cmd.matchedTests re (Suite.Tests s) = []) suites ->
  Cmd.matchTests re suites b st = (Cmd.Done b, st).
Proof.
  induction 1 as [|p rest (s & Hp & Hs) _ IH]; [reflexivity|].
  now rewrite matchTests_cons, Hp, Hs.
Qed.

(** *** Loops that return *)

Lemma if_elem_of_cons {A : Type} (q p : nat) (rest : list nat) (x y : A) :
  (if decide (q ∈ p :: rest) then x else y)
  = if decide (q = p) then x else if decide (q ∈ rest) then x else y.
Proof.
  destruct (decide (q = p)) as [->|Hne].
  - apply decide_True, elem_of_cons. now left.
  - destruct (decide (q ∈ rest)) as [Hin|Hout].
    + apply decide_True, elem_of_cons. now right.
    + apply decide_False. rewrite elem_of_cons. tauto.
Qed.

Lemma writtenByName_saved (re : Regexp) (st : Cmd.State) (p q : nat)
  (s : Suite.t) (tests : list Test.t) :
  Cmd.heap st !! p = Some s ->
  Selection.writtenByName re (Cmd.heap (Selection.saved st p s tests)) q
  = Selection.writtenByName re (Cmd.heap st) q.
Proof.
  intros Hp. unfold Selection.writtenByName.
  rewrite (lookup_saved st p q s tests Hp).
  destruct (decide (q = p)) as [->|_]; [|reflexivity].
  now rewrite Hp, nameMatches_set_Tests, scriptEvents_set_Tests.
Qed.

(** The first loop, when it returns: every suite it visited is as
    [afterNames] leaves it, the others are untouched; it has saved the
    script of each suite whose name matches, in order; and it has found
    a match if one of them matches. *)
Lemma matchSuites_Done (re : Regexp) (suites : list nat) :
  forall b st b' st',
    Cmd.matchSuites re suites b st = (Cmd.Done b', st') ->
    (forall q, Cmd.heap st' !! q
               = if decide (q ∈ suites)
                 then Selection.afterNames re <$> Cmd.heap st !! q
                 else Cmd.heap st !! q)
    /\ Cmd.log st'
       = Cmd.log st ++ flat_map (Selection.writtenByName re (Cmd.heap st)) suites
    /\ b' = b || existsb (fun p => match Cmd.heap st !! p with
                                   | Some s => Selection.nameMatches re s
                                   | None => false
                                   end) suites.
Proof.
  induction suites as [|p rest IH]; intros b st b' st' Hrun.
  - injection Hrun as <- <-. simpl. rewrite app_nil_r, orb_false_r.
    repeat split.
  - rewrite matchSuites_cons in Hrun.
    destruct (Cmd.heap st !! p) as [s|] eqn:Hp; [|discriminate].
    destruct (Selection.nameMatches re s) eqn:Hs.
    + destruct (Selection.saveError st s); [discriminate|].
      apply IH in Hrun as (Hheap & Hlog & Hfound).
      repeat split.
      * intros q. rewrite Hheap, (lookup_saved st p q s [] Hp).
        rewrite if_elem_of_cons.
        destruct (decide (q = p)) as [->|Hne]; [|reflexivity].
        rewrite Hp. simpl. unfold Selection.afterNames at 2. rewrite Hs.
        destruct (decide (p ∈ rest)); [|reflexivity].
        simpl. unfold Selection.afterNames.
        now rewrite nameMatches_set_Tests, Hs.
      * rewrite Hlog, log_saved. simpl.
        unfold Selection.writtenByName at 2. rewrite Hp, Hs, <- app_assoc.
        do 2 f_equal. apply flat_map_ext. intros q.
        now apply writtenByName_saved.
      * rewrite Hfound. simpl. rewrite Hp, Hs. now rewrite orb_true_r.
    + apply IH in Hrun as (Hheap & Hlog & Hfound).
      repeat split.
      * intros q. rewrite Hheap.
        rewrite if_elem_of_cons.
        destruct (decide (q = p)) as [->|Hne]; [|reflexivity].
        destruct (decide (p ∈ rest)); [reflexivity|].
        rewrite Hp. simpl. unfold Selection.afterNames. now rewrite Hs.
      * rewrite Hlog. simpl. unfold Selection.writtenByName at 2.
        now rewrite Hp, Hs.
      * rewrite Hfound. simpl. now rewrite Hp, Hs.
Qed.

Lemma writtenForTests_saved (re : Regexp) (st : Cmd.State) (p q : nat)
  (s : Suite.t) :
  Cmd.heap st !! p = Some s ->
  Selection.writtenForTests re
    (Cmd.heap (Selection.saved st p s (Cmd.matchedTests re (Suite.Tests s)))) q
  = Selection.writtenForTests re (Cmd.heap st) q.
Proof.
  intros Hp. unfold Selection.writtenForTests.
  rewrite (lookup_saved st p q s _ Hp).
  destruct (decide (q = p)) as [->|_]; [|reflexivity].
  rewrite Hp. cbn [Suite.Tests Suite.set_Tests].
  now rewrite matchedTests_twice, scriptEvents_set_Tests.
Qed.

(** The second loop, when it returns. *)
Lemma matchTests_Done (re : Regexp) (suites : list nat) :
  forall b st b' st',
    Cmd.matchTests re suites b st = (Cmd.Done b', st') ->
    (forall q, Cmd.heap st' !! q
               = if decide (q ∈ suites)
                 then Selection.afterTests re <$> Cmd.heap st !! q
                 else Cmd.heap st !! q)
    /\ Cmd.log st'
       = Cmd.log st
         ++ flat_map (Selection.writtenForTests re (Cmd.heap st)) suites
    /\ b' = b || existsb (fun p => match Cmd.heap st !! p with
                                   | Some s =>
                                       existsb
                                         (fun t => Regexp_MatchString re (Test.Name t))
                                         (Suite.Tests s)
                                   | None => false
                                   end) suites.
Proof.
  induction suites as [|p rest IH]; intros b st b' st' Hrun.
  - injection Hrun as <- <-. simpl. rewrite app_nil_r, orb_false_r.
    repeat split.
  - rewrite matchTests_cons in Hrun.
    destruct (Cmd.heap st !! p) as [s|] eqn:Hp; [|discriminate].
    destruct (Cmd.matchedTests re (Suite.Tests s)) as [|t matched] eqn:Hs.
    + apply IH in Hrun as (Hheap & Hlog & Hfound).
      repeat split.
      * intros q. rewrite Hheap.
        rewrite if_elem_of_cons.
        destruct (decide (q = p)) as [->|Hne]; [|reflexivity].
        destruct (decide (p ∈ rest)); [reflexivity|].
        rewrite Hp. simpl. unfold Selection.afterTests. now rewrite Hs.
      * rewrite Hlog. simpl. unfold Selection.writtenForTests at 2.
        now rewrite Hp, Hs.
      * rewrite Hfound. simpl. rewrite Hp.
        apply matchedTests_nil in Hs. now rewrite Hs.
    + destruct (Selection.saveError st s); [discriminate|].
      rewrite <- Hs in Hrun.
      apply IH in Hrun as (Hheap & Hlog & Hfound).
      repeat split.
      * intros q. rewrite Hheap, (lookup_saved st p q s _ Hp).
        rewrite if_elem_of_cons.
        destruct (decide (q = p)) as [->|Hne]; [|reflexivity].
        assert (Hafter : Selection.afterTests re s
                         = Suite.set_Tests s (Cmd.matchedTests re (Suite.Tests s))).
        { unfold Selection.afterTests. now rewrite Hs. }
        rewrite Hp. simpl. rewrite <- Hafter.
        destruct (decide (p ∈ rest)); [|reflexivity].
        simpl. now rewrite afterTests_twice.
      * rewrite Hlog, log_saved.
        rewrite (flat_map_ext _ _ (fun q => writtenForTests_saved re st p q s Hp)).
        cbn [flat_map]. unfold Selection.writtenForTests at 2. rewrite Hp, Hs.
        now rewrite <- app_assoc.
      * rewrite Hfound. simpl. rewrite Hp.
        assert (Hex : existsb (fun t0 => Regexp_MatchString re (Test.Name t0))
                        (Suite.Tests s) = true).
        { destruct (existsb _ (Suite.Tests s)) eqn:Hex; [reflexivity|].
          apply matchedTests_nil in Hex. congruence. }
        rewrite Hex. now rewrite orb_true_r.
Qed.

(** *** [processBashSuites] *)

Lemma suiteMatches_false (re : Regexp) (s : Suite.t) :
  Selection.suiteMatches re s = false ->
  Selection.nameMatches re s = false
  /\ Cmd.matchedTests re (Suite.Tests s) = [].
Proof.
  unfold Selection.suiteMatches. intros Hs.
  apply orb_false_elim in Hs as [Hname Htests].
  split; [exact Hname | now apply matchedTests_nil].
Qed.

Lemma anyMatch_false (re : Regexp) (h : list Suite.t) (suites : list nat) :
  Forall (fun p => is_Some (h !! p)) suites ->
  Selection.anyMatch re h suites = false ->
  Forall (fun p => exists s, h !! p = Some s
                             /\ Selection.suiteMatches re s = false) suites.
Proof.
  unfold Selection.anyMatch.
  induction 1 as [|p rest [s Hp] _ IH]; simpl; intros Hany; constructor.
  - rewrite Hp in Hany. apply orb_false_elim in Hany as [Hs _]. now exists s.
  - apply orb_false_elim in Hany as [_ Hrest]. now apply IH.
Qed.

(** C5: in script mode, when the pattern matches no suite name and no test
    name among the suites, the operation fails with the no-matches error and
    writes nothing (the state is as before); when a suite or a test
    matches, the error it returns, if any, is not the no-matches error. *)
Theorem processBashSuites_no_matches (re : Regexp) (suites : list nat)
  (st : Cmd.State) :
  Forall (fun p => is_Some (Cmd.heap st !! p)) suites ->
  if Selection.anyMatch re (Cmd.heap st) suites
  then forall pattern,
         fst (Cmd.processBashSuites suites re st)
         <> Cmd.Failed (ErrNoMatchesFound pattern)
  else Cmd.processBashSuites suites re st
       = (Cmd.Failed (ErrNoMatchesFound (Regexp_String re)), st).
Proof.
  intros Hvalid.
  destruct (Selection.anyMatch re (Cmd.heap st) suites) eqn:Hany.
  - intros pattern. unfold Cmd.processBashSuites, Cmd.bind.
    destruct (Cmd.matchSuites re suites false st) as [[b1|e1|] st1] eqn:H1.
    + destruct (Cmd.matchTests re suites b1 st1) as [[b2|e2|] st2] eqn:H2.
      * assert (Hfound : b2 = true).
        { apply matchSuites_Done in H1 as (Hheap & _ & Hb1).
          apply matchTests_Done in H2 as (_ & _ & Hb2).
          apply existsb_exists in Hany as (p & Hin & Hp).
          destruct (Cmd.heap st !! p) as [s|] eqn:Hs; [|discriminate].
          destruct (Selection.nameMatches re s) eqn:Hname.
          - assert (Hb1' : b1 = true).
            { rewrite Hb1. simpl. apply existsb_exists. exists p.
              now rewrite Hs. }
            now rewrite Hb2, Hb1'.
          - unfold Selection.suiteMatches in Hp. rewrite Hname in Hp.
            rewrite Hb2. apply orb_true_iff. right.
            apply existsb_exists. exists p. split; [exact Hin|].
            rewrite Hheap, decide_True by now apply list_elem_of_In.
            rewrite Hs. simpl. unfold Selection.afterNames.
            now rewrite Hname. }
        rewrite Hfound. discriminate.
      * apply matchTests_Failed in H2 as (name & cause & ->). discriminate.
      * discriminate.
    + apply matchSuites_Failed in H1 as (name & cause & ->). discriminate.
    + discriminate.
  - pose proof (anyMatch_false re _ _ Hvalid Hany) as Hnone.
    unfold Cmd.processBashSuites, Cmd.bind.
    rewrite matchSuites_nothing, matchTests_nothing; [reflexivity| |].
    + eapply Forall_impl; [exact Hnone|]. intros p (s & Hp & Hs).
      exists s. split; [exact Hp | now apply suiteMatches_false].
    + eapply Forall_impl; [exact Hnone|]. intros p (s & Hp & Hs).
      exists s. split; [exact Hp | now apply suiteMatches_false].
Qed.

Lemma afterTests_afterNames (re : Regexp) (s : Suite.t) :
  Selection.afterTests re (Selection.afterNames re s)
  = Suite.set_Tests s (Selection.selectedTests re s).
Proof.
  unfold Selection.afterTests, Selection.afterNames, Selection.selectedTests.
  destruct (Selection.nameMatches re s); [reflexivity|].
  destruct (Cmd.matchedTests re (Suite.Tests s)); [|reflexivity].
  symmetry. apply set_Tests_same.
Qed.

Lemma flat_map_ext_In {A B : Type} (f g : A -> list B) (l : list A) :
  (forall x, In x l -> f x = g x) -> flat_map f l = flat_map g l.
Proof.
  induction l as [|x l IH]; simpl; intros Hfg; [reflexivity|].
  rewrite (Hfg x) by now left. rewrite IH; [reflexivity|].
  intros y Hy. apply Hfg. now right.
Qed.

(** C1, as the code has it: when the selection returns without error, a
    suite whose name matches is left with no test and a suite whose name
    does not match and that has matching tests is left with these tests, in
    their order (any other suite is left as it was); what is written, for
    the suites whose name matches and then for the others that have a
    matching test, is the suite's script, and the script of a suite is the
    same whatever tests the suite holds. *)
Theorem processBashSuites_selection (re : Regexp) (suites : list nat)
  (st st' : Cmd.State) :
  Cmd.processBashSuites suites re st = (Cmd.Done tt, st') ->
  (forall p s,
     p ∈ suites -> Cmd.heap st !! p = Some s ->
     Cmd.heap st' !! p
     = Some (Suite.set_Tests s
               (if Selection.nameMatches re s then []
                else match Cmd.matchedTests re (Suite.Tests s) with
                     | [] => Suite.Tests s
                     | matched => matched
                     end)))
  /\ (forall q, q ∉ suites -> Cmd.heap st' !! q = Cmd.heap st !! q)
  /\ Cmd.log st'
     = Cmd.log st
       ++ flat_map (Selection.writtenByName re (Cmd.heap st)) suites
       ++ flat_map (Selection.writtenByTests re (Cmd.heap st)) suites
  /\ (forall s tests,
        Suite.BashString (Suite.set_Tests s tests) = Suite.BashString s).
Proof.
  unfold Cmd.processBashSuites, Cmd.bind. intros Hrun.
  destruct (Cmd.matchSuites re suites false st) as [[b1|e1|] st1] eqn:H1;
    [|discriminate..].
  destruct (Cmd.matchTests re suites b1 st1) as [[b2|e2|] st2] eqn:H2;
    [|discriminate..].
  destruct b2; [|discriminate]. injection Hrun as <-.
  apply matchSuites_Done in H1 as (Hheap1 & Hlog1 & _).
  apply matchTests_Done in H2 as (Hheap2 & Hlog2 & _).
  repeat split.
  - intros p s Hin Hp.
    rewrite Hheap2, Hheap1, !decide_True, Hp by exact Hin.
    simpl. f_equal. apply afterTests_afterNames.
  - intros q Hout. now rewrite Hheap2, Hheap1, !decide_False by exact Hout.
  - rewrite Hlog2, Hlog1, <- app_assoc. do 2 f_equal.
    apply flat_map_ext_In. intros p Hin.
    unfold Selection.writtenForTests, Selection.writtenByTests.
    rewrite Hheap1, decide_True by now apply list_elem_of_In.
    destruct (Cmd.heap st !! p) as [s|]; [|reflexivity].
    simpl. unfold Selection.afterNames.
    destruct (Selection.nameMatches re s); [reflexivity|].
    reflexivity.
  - apply BashString_set_Tests.
Qed.

(** *** [RunE] *)

(** C4, as the code has it: a run in script mode with an empty pattern
    returns the error [Flag --bash can be used only with flag --match]
    before it reads, renders or writes anything. *)
Theorem RunE_bash_without_match (args : list string) (st : Cmd.State) :
  Cmd.RunE EmptyString (Some true) args st
  = (Cmd.Failed ErrBashWithoutMatch, st)
  /\ error_message ErrBashWithoutMatch
     = "Flag --bash can be used only with flag --match".
Proof. split; reflexivity. Qed.

(** C9: when linking the parsed examples reports an error, the run returns
    an error; no suite is generated (the heap is as before) and no file is
    written: the trace gains at most the creation of the output directory,
    which comes before the linking. *)
Theorem RunE_link_error (flagMatch : string) (flagBash : option bool)
  (args : list string) (st : Cmd.State) (cause : string) :
  let c := config_FromArgs args in
  linker_Link (InputDir c)
    (Cmd.parseExamples (Cmd.getRecursiveDirectories (InputDir c)) [])
  = inr cause ->
  let result := Cmd.RunE flagMatch flagBash args st in
  (fst result = Cmd.Failed ErrBashWithoutMatch
   \/ fst result = Cmd.Failed (ErrCannotBuildExamples cause))
  /\ Cmd.heap (snd result) = Cmd.heap st
  /\ (Cmd.log (snd result) = Cmd.log st
      \/ Cmd.log (snd result) = Cmd.log st ++ [MkdirAll (OutputDir c)])
  /\ forall name content,
       In (WriteFile name content) (Cmd.log (snd result)) ->
       In (WriteFile name content) (Cmd.log st).
Proof.
  intros c Hlink result. subst result. unfold Cmd.RunE.
  destruct (_ && _).
  - simpl. repeat split; auto.
  - unfold Cmd.bind, Cmd.os_MkdirAll. cbn [InputDir OutputDir].
    fold c. rewrite Hlink. simpl.
    repeat split; auto.
    intros name content Hin. apply in_app_or in Hin as [Hin|Hin]; [exact Hin|].
    destruct Hin as [Hin|[]]. discriminate.
Qed.

End CommandFacts.

(** ** Runs on the sample *)

Section SampleRuns.

#[local] Existing Instance Sample.generator.

Lemma Suite_String_without_tests_witness :
  Suite.Tests Sample.root = []
  /\ Suite.Tests (snd (Suite.String_ (G := Sample.generator) Sample.root))
     = [Test.new]
  /\ Suite.String_raw (G := Sample.generator) Sample.root
     = Suite.header (G := Sample.generator) Sample.root
       +:+ "func (s *Suite) Test() {}".
Proof.
  split; [reflexivity|].
  pose proof (Suite_String_without_tests (G := Sample.generator) Sample.root
                eq_refl) as (Htests & _ & Hraw & _).
  split; [exact Htests | exact Hraw].
Defined.

Lemma childTitle_of_directory_witness :
  Suite.Dir Sample.titledChild = "my-example_case"
  /\ Suite.childTitle Sample.titledChild = "My_example_case".
Proof.
  split; [reflexivity|].
  apply (childTitle_of_directory Sample.titledChild). reflexivity.
Defined.

(** The same title under a longer path, and titles of other directories. *)
Example childTitle_nested :
  Suite.childTitle (G := Sample.generator)
    (Sample.suite "examples/basic/my-example_case" "Case" [] [] [] [])
  = "My_example_case".
Proof. reflexivity. Qed.

Example childTitle_dots_and_spaces :
  Suite.childTitle (G := Sample.generator)
    (Sample.suite "use-cases/kernel 2.x" "K" [] [] [] [])
  = "Kernel_2_x".
Proof. reflexivity. Qed.

Example getCompleteSetup_chain :
  Suite.getCompleteSetup (G := Sample.generator) Sample.leaf
  = ["cd /work/root"; "do r"; "cd /work/mid"; "do m"; "cd /work/leaf"; "C"].
Proof. reflexivity. Qed.

(** C2 as stated fails: on the chain root, mid, leaf the cleanup is leaf's
    commands, then mid's, then root's, whereas the setup takes root, then
    mid, then leaf; the cleanup is neither the root-first concatenation
    over the chain nor the one over the ancestors alone. *)
Lemma getCompleteCleanup_not_root_first :
  Suite.ancestors (G := Sample.generator) Sample.leaf
  = [Sample.root; Sample.mid]
  /\ Suite.getCompleteCleanup (G := Sample.generator) Sample.leaf
     = ["undo l"; "undo m"; "undo r"]
  /\ Suite.getCompleteCleanup (G := Sample.generator) Sample.leaf
     <> flat_map Suite.Cleanup
          (Suite.ancestors (G := Sample.generator) Sample.leaf ++ [Sample.leaf])
  /\ Suite.getCompleteCleanup (G := Sample.generator) Sample.leaf
     <> flat_map Suite.Cleanup
          (Suite.ancestors (G := Sample.generator) Sample.leaf).
Proof. repeat split; discriminate. Qed.

Lemma getCompleteCleanup_nearest_first_witness :
  Suite.isChain (G := Sample.generator) Sample.leaf = true
  /\ Suite.getCompleteCleanup (G := Sample.generator) Sample.leaf
     = flat_map Suite.Cleanup [Sample.leaf; Sample.mid; Sample.root].
Proof.
  split; [reflexivity|].
  apply (getCompleteCleanup_nearest_first (G := Sample.generator) Sample.leaf).
  reflexivity.
Defined.

(** C8 as stated fails: rendering a suite with zero tests in the compiled
    format leaves it with one test, and rendering a test in the shell
    format leaves it with one more Run command. *)
Lemma rendering_modifies_the_model :
  snd (Suite.String_ (G := Sample.generator) Sample.root) <> Sample.root
  /\ Suite.Tests (snd (Suite.String_ (G := Sample.generator) Sample.root))
     = [Test.new]
  /\ snd (Test.BashString (H := Sample.generator) (Sample.test "T1"))
     <> Sample.test "T1"
  /\ Test.Run (snd (Test.BashString (H := Sample.generator) (Sample.test "T1")))
     = ["echo T1"; "cd /work/examples"].
Proof. repeat split; discriminate. Qed.

(** C1 as stated fails: with the pattern [A], suite [A] matches by name and
    holds the tests [T1] and [T2]; the run leaves it with no test, and the
    one file written holds its setup and cleanup procedures and no test. *)
Lemma processBashSuites_matching_suite_loses_tests :
  Selection.nameMatches (C := Sample.selectionCommand) "A" Sample.A = true
  /\ Suite.Tests Sample.A = [Sample.test "T1"; Sample.test "T2"]
  /\ fst (Sample.select "A") = Cmd.Done tt
  /\ Suite.Tests <$> (Cmd.heap (snd (Sample.select "A")) !! 0) = Some []
  /\ Suite.Tests <$> (Cmd.heap (snd (Sample.select "A")) !! 0)
     <> Some (Suite.Tests Sample.A)
  /\ Cmd.log (snd (Sample.select "A"))
     = [MkdirAll "out/a/";
        WriteFile "out/a/suite.sh"
          (Suite.bashSuiteTemplate "cd /work/a" EmptyString)].
Proof. repeat split. discriminate. Qed.

Lemma processBashSuites_selection_witness :
  Sample.select "T1"
  = (Cmd.Done tt,
     Cmd.mkState [Suite.set_Tests Sample.A [Sample.test "T1"]; Sample.B]
       (Selection.scriptEvents Sample.A))
  /\ Cmd.heap (snd (Sample.select "T1")) !! 0
     = Some (Suite.set_Tests Sample.A [Sample.test "T1"]).
Proof.
  split; [reflexivity|].
  apply (proj1 (processBashSuites_selection (C := Sample.selectionCommand)
                  "T1" [0; 1] Sample.selectionState
                  (snd (Sample.select "T1")) eq_refl) 0 Sample.A).
  - apply elem_of_cons. now left.
  - reflexivity.
Defined.

Lemma processBashSuites_no_matches_witness :
  Forall (fun p => is_Some (Cmd.heap Sample.selectionState !! p)) [0; 1]
  /\ Sample.select "T9"
     = (Cmd.Failed (ErrNoMatchesFound "T9"), Sample.selectionState)
  /\ forall pattern,
       fst (Sample.select "T3") <> Cmd.Failed (ErrNoMatchesFound pattern).
Proof.
  assert (Hvalid :
    Forall (fun p => is_Some (Cmd.heap Sample.selectionState !! p)) [0; 1]).
  { repeat constructor; eexists; reflexivity. }
  split; [exact Hvalid|]. split.
  - apply (processBashSuites_no_matches (C := Sample.selectionCommand)
             "T9" [0; 1] Sample.selectionState Hvalid).
  - apply (processBashSuites_no_matches (C := Sample.selectionCommand)
             "T3" [0; 1] Sample.selectionState Hvalid).
Defined.

(** C4 as stated fails: a run in script mode with an empty pattern, over
    an input that holds two suites, returns an error and renders
    nothing. *)
Lemma RunE_empty_pattern_fails :
  fst (Sample.bashRun EmptyString) = Cmd.Failed ErrBashWithoutMatch
  /\ fst (Sample.bashRun EmptyString) <> Cmd.Done tt
  /\ snd (Sample.bashRun EmptyString) = Sample.emptyState.
Proof. repeat split. discriminate. Qed.

(** With a pattern the same run selects and writes. *)
Example RunE_with_pattern :
  fst (Sample.bashRun "B") = Cmd.Done tt
  /\ Cmd.log (snd (Sample.bashRun "B"))
     = MkdirAll "out" :: Selection.scriptEvents Sample.B.
Proof. repeat split. Qed.

Lemma RunE_link_error_witness :
  linker_Link (Command := Sample.cyclicCommand) "in"
    (Cmd.parseExamples (C := Sample.cyclicCommand)
       (Cmd.getRecursiveDirectories (C := Sample.cyclicCommand) "in") [])
  = inr "cycle at in/a"
  /\ (fst Sample.cyclicRun = Cmd.Failed ErrBashWithoutMatch
      \/ fst Sample.cyclicRun
         = Cmd.Failed (ErrCannotBuildExamples "cycle at in/a"))
  /\ Cmd.heap (snd Sample.cyclicRun) = [].
Proof.
  split; [reflexivity|].
  pose proof (RunE_link_error (C := Sample.cyclicCommand)
                "B" (Some true) ["in"; "out"] Sample.emptyState
                "cycle at in/a" eq_refl) as (Hresult & Hheap & _).
  split; [exact Hresult | exact Hheap].
Defined.

Example RunE_link_error_trace :
  Sample.cyclicRun
  = (Cmd.Failed (ErrCannotBuildExamples "cycle at in/a"),
     Cmd.mkState [] [MkdirAll "out"]).
Proof. reflexivity. Qed.

End SampleRuns.

(** * Further properties *)

(** ** Strings *)

Lemma append_cons (x : ascii) (a b : string) :
  String x a +:+ b = String x (a +:+ b).
Proof. reflexivity. Qed.

Lemma append_assoc (a b c : string) : (a +:+ b) +:+ c = a +:+ (b +:+ c).
Proof.
  induction a as [|x a IH]; [reflexivity|]. now rewrite !append_cons, IH.
Qed.

Lemma append_empty_r (a : string) : a +:+ EmptyString = a.
Proof.
  induction a as [|x a IH]; [reflexivity|]. now rewrite append_cons, IH.
Qed.

Lemma prefix_append (a b : string) : String.prefix a (a +:+ b) = true.
Proof.
  induction a as [|x a IH].
  - now destruct b.
  - rewrite append_cons. cbn [String.prefix].
    destruct (ascii_dec x x) as [_|Hne]; [exact IH | now destruct Hne].
Qed.

Lemma prefix_split (a s : string) :
  String.prefix a s = true -> exists b, s = a +:+ b.
Proof.
  revert s. induction a as [|x a IH]; intros s Hpre.
  - now exists s.
  - destruct s as [|y s]; [discriminate|]. cbn in Hpre.
    destruct (ascii_dec x y) as [->|_]; [|discriminate].
    destruct (IH s Hpre) as [b ->]. now exists b.
Qed.

Lemma strings_Split_not_nil (s : string) (sep : ascii) :
  strings_Split s sep <> [].
Proof.
  induction s as [|c s IH]; cbn; [discriminate|].
  destruct (Ascii.eqb c sep); [discriminate|].
  now destruct (strings_Split s sep).
Qed.

Lemma strings_Join_cons (x : string) (rest : list string) (sep : string) :
  rest <> [] ->
  strings_Join (x :: rest) sep = x +:+ sep +:+ strings_Join rest sep.
Proof. destruct rest; [now intros [] | reflexivity]. Qed.

(** Joining the pieces with the separator gives the string back. *)
Lemma strings_Join_Split (s : string) (sep : ascii) :
  strings_Join (strings_Split s sep) (String sep EmptyString) = s.
Proof.
  induction s as [|c s IH]; [reflexivity|]. cbn [strings_Split].
  pose proof (strings_Split_not_nil s sep) as Hne.
  destruct (Ascii.eqb c sep) eqn:Hc.
  - apply Ascii.eqb_eq in Hc as ->.
    rewrite strings_Join_cons by exact Hne. cbn. now rewrite IH.
  - destruct (strings_Split s sep) as [|piece pieces]; [now destruct Hne|].
    rewrite <- IH. now destruct pieces.
Qed.

Lemma strings_Split_length (s : string) (sep : ascii) :
  length (strings_Split s sep) = S (Behaviour.occurrences sep s).
Proof.
  induction s as [|c s IH]; [reflexivity|]. cbn.
  pose proof (strings_Split_not_nil s sep) as Hne.
  destruct (Ascii.eqb c sep); cbn; [now rewrite IH|].
  destruct (strings_Split s sep); [now destruct Hne | exact IH].
Qed.

Lemma strings_Split_pieces (s : string) (sep : ascii) :
  Forall (fun piece => Behaviour.occurrences sep piece = 0)
    (strings_Split s sep).
Proof.
  induction s as [|c s IH]; cbn; [now repeat constructor|].
  destruct (Ascii.eqb c sep) eqn:Hc; [now constructor|].
  destruct (strings_Split s sep) as [|piece pieces]; [now repeat constructor; cbn; rewrite Hc|].
  apply Forall_cons in IH as [Hpiece Hpieces].
  constructor; [|exact Hpieces]. cbn. now rewrite Hc.
Qed.

(** ** Bodies and tests *)

Section RendererFacts.

Context `{G : Generator}.

Lemma Body_String_cons (block : string) (b : Body) :
  exists rest, Body_String (block :: b) = "r.Run(" +:+ rest.
Proof.
  unfold Body_String. cbn [map]. destruct (map Body_block b) as [|next blocks].
  - eexists. reflexivity.
  - eexists. unfold Body_block at 1.
    change (String.concat EmptyString (?x :: next :: blocks))
      with (x +:+ EmptyString +:+ String.concat EmptyString (next :: blocks)).
    rewrite append_assoc. reflexivity.
Qed.

(** X1: the text of a body is empty exactly when the body holds no block,
    and so is what the renderers put in the cleanup slot; the text of any
    other body starts with a call of the runner. *)
Theorem Body_String_empty_iff (b : Body) :
  (Body_String b = EmptyString <-> b = [])
  /\ (wrap_cleanup (Body_String b) = EmptyString <-> b = [])
  /\ match b with
     | [] => Body_String b = EmptyString
     | _ :: _ =>
         (exists rest, Body_String b = "r.Run(" +:+ rest)
         /\ exists rest,
              wrap_cleanup (Body_String b)
              = tab +:+ "s.T().Cleanup(func() {" +:+ nl
                +:+ tab +:+ tab +:+ "r.Run(" +:+ rest
     end.
Proof.
  destruct b as [|block b].
  - repeat split; reflexivity.
  - destruct (Body_String_cons block b) as [rest Hrest].
    assert (Hwrap : wrap_cleanup (Body_String (block :: b))
                    = tab +:+ "s.T().Cleanup(func() {" +:+ nl
                      +:+ tab +:+ tab +:+ "r.Run("
                      +:+ (rest +:+ nl +:+ tab +:+ "})")).
    { rewrite Hrest. unfold wrap_cleanup. cbn [String.append len String.length Nat.ltb Nat.leb].
      cbn. now rewrite !append_assoc. }
    repeat split; try discriminate.
    + rewrite Hrest. discriminate.
    + rewrite Hwrap. discriminate.
    + now exists rest.
    + eexists. exact Hwrap.
Qed.

Lemma Body_lines_Join (lines : list string) :
  Body_lines lines
  = strings_Join (map Behaviour.quoted lines) Behaviour.lineBreak.
Proof.
  induction lines as [|line rest IH]; [reflexivity|].
  cbn [Body_lines map]. destruct rest as [|next rest].
  - cbn. unfold Behaviour.quoted. now rewrite !append_empty_r.
  - rewrite strings_Join_cons by discriminate. rewrite IH.
    unfold Behaviour.quoted, Behaviour.lineBreak.
    now rewrite !append_assoc.
Qed.

(** X2: a block is rendered as one call of the runner whose argument is the
    lines of the block, each between backquotes, in order; none is lost:
    there is one more line than the block has newlines, no line holds a
    newline, and the lines joined by newlines are the block. *)
Theorem Body_block_lines (block : string) :
  let lines := strings_Split block "010"%char in
  Body_block block
  = "r.Run("
    +:+ strings_Join (map Behaviour.quoted lines) Behaviour.lineBreak
    +:+ ")" +:+ nl
  /\ strings_Join lines nl = block
  /\ length lines = S (Behaviour.occurrences "010"%char block)
  /\ Forall (fun line => Behaviour.occurrences "010"%char line = 0) lines.
Proof.
  intros lines. subst lines. repeat split.
  - unfold Body_block. now rewrite Body_lines_Join.
  - apply strings_Join_Split.
  - apply strings_Split_length.
  - apply strings_Split_pieces.
Qed.

(** X3: every call of [Test.BashString] appends one more change of
    directory to the Run commands of the test and touches nothing else;
    the text of the call after [n] others shows the Run commands followed
    by [n + 1] such changes. *)
Theorem Test_BashString_accumulates (n : nat) (x : Test.t) :
  let cd := "cd " +:+ filepath_Abs (Test.Dir x) in
  let x' := Behaviour.afterBashStrings n x in
  Test.Run x' = Test.Run x ++ repeat cd n
  /\ Test.Cleanup x' = Test.Cleanup x
  /\ Test.Name x' = Test.Name x
  /\ Test.Dir x' = Test.Dir x
  /\ fst (Test.BashString x')
     = Test.bashTestTemplate (Test.Name x)
         (Body_BashString (Test.Run x ++ repeat cd (S n)) true)
         (Body_BashString (Test.Cleanup x) false).
Proof.
  cbv zeta.
  assert (Hfields : forall n x,
    Test.Run (Behaviour.afterBashStrings n x)
    = Test.Run x ++ repeat ("cd " +:+ filepath_Abs (Test.Dir x)) n
    /\ Test.Cleanup (Behaviour.afterBashStrings n x) = Test.Cleanup x
    /\ Test.Name (Behaviour.afterBashStrings n x) = Test.Name x
    /\ Test.Dir (Behaviour.afterBashStrings n x) = Test.Dir x).
  { clear n x. induction n as [|n IH]; intros x.
    - cbn. now rewrite app_nil_r.
    - cbn [Behaviour.afterBashStrings].
      destruct (IH (snd (Test.BashString x))) as (Hrun & Hcleanup & Hname & Hdir).
      rewrite Hrun, Hcleanup, Hname, Hdir. cbn.
      repeat split. now rewrite <- app_assoc. }
  destruct (Hfields n x) as (Hrun & Hcleanup & Hname & Hdir).
  repeat split; try assumption.
  unfold Test.BashString. cbn [fst Test.Name Test.Run Test.Cleanup].
  rewrite Hrun, Hcleanup, Hname, Hdir.
  rewrite <- app_assoc. do 3 f_equal.
  change (repeat ?c n ++ [?c]) with (repeat c n ++ repeat c 1).
  rewrite <- repeat_app. now rewrite Nat.add_1_r.
Qed.

End RendererFacts.

(** ** Suites *)

Section MoreSuiteFacts.

Context `{G : Generator}.

Lemma Test_String_commandless (x : Test.t) :
  Behaviour.commandless x = true -> Test.String_ x = Test.emptyTest.
Proof.
  unfold Behaviour.commandless, Test.String_.
  destruct (Test.Cleanup x); [|discriminate].
  now destruct (Test.Run x).
Qed.

Lemma map_Test_String_commandless (tests : list Test.t) :
  forallb Behaviour.commandless tests = true ->
  map Test.String_ tests = repeat Test.emptyTest (length tests).
Proof.
  induction tests as [|x tests IH]; cbn; [reflexivity|].
  intros Hall. apply andb_prop in Hall as [Hx Htests].
  now rewrite (Test_String_commandless x Hx), (IH Htests).
Qed.

(** X4: when no test of a suite has a command, the compiled format renders
    as many copies of the same nameless unit as the suite has tests (one
    for a suite without tests): the names of the tests do not appear. *)
Theorem Suite_String_commandless (s : Suite.t) :
  forallb Behaviour.commandless (Suite.Tests s) = true ->
  Suite.String_raw s
  = Suite.header s
    +:+ String.concat EmptyString
          (repeat "func (s *Suite) Test() {}"
             (Nat.max 1 (length (Suite.Tests s)))).
Proof.
  intros Hall. unfold Suite.String_raw. f_equal. f_equal.
  destruct (Suite.Tests s) as [|x tests] eqn:Htests; [reflexivity|].
  cbn [Suite.defaultTests]. rewrite (map_Test_String_commandless _ Hall).
  reflexivity.
Qed.


(** X6: a suite reached through two parents is taken once for each: its
    setup commands come twice in the setup of the suite below, and its
    cleanup commands twice in the cleanup. *)
Theorem getCompleteSetup_shared_parent (s left right shared : Suite.t) :
  Suite.Parents s = [left; right] ->
  Suite.Parents left = [shared] ->
  Suite.Parents right = [shared] ->
  Suite.getCompleteSetup s
  = Suite.getCompleteSetup shared ++ Suite.ownSetup left
    ++ Suite.getCompleteSetup shared ++ Suite.ownSetup right
    ++ Suite.ownSetup s
  /\ Suite.getCompleteCleanup s
     = Suite.Cleanup s
       ++ Suite.Cleanup left ++ Suite.getCompleteCleanup shared
       ++ Suite.Cleanup right ++ Suite.getCompleteCleanup shared.
Proof.
  intros Hs Hleft Hright. split.
  - rewrite (getCompleteSetup_unfold s), Hs. cbn [flat_map].
    rewrite (getCompleteSetup_unfold left), (getCompleteSetup_unfold right).
    rewrite Hleft, Hright. cbn [flat_map]. unfold Suite.ownSetup.
    rewrite !app_nil_r, <- !app_assoc. reflexivity.
  - rewrite (getCompleteCleanup_unfold s), Hs. cbn [flat_map].
    rewrite (getCompleteCleanup_unfold left), (getCompleteCleanup_unfold right).
    rewrite Hleft, Hright. cbn [flat_map].
    rewrite !app_nil_r, <- !app_assoc. reflexivity.
Qed.

Lemma flat_map_nil_iff {A B : Type} (f : A -> list B) (l : list A) :
  flat_map f l = [] <-> Forall (fun x => f x = []) l.
Proof.
  induction l as [|x l IH]; cbn.
  - split; [constructor | reflexivity].
  - split.
    + intros H. apply app_eq_nil in H as [Hx Hl].
      constructor; [exact Hx | now apply IH].
    + intros H. apply Forall_cons in H as [Hx Hl].
      rewrite Hx. now apply IH.
Qed.

(** X7: the setup of the shell format is never empty, since it holds the
    change to the suite's own directory; the cleanup is empty exactly when
    neither the suite nor any suite above it has a cleanup command. *)
Theorem getCompleteCleanup_empty_iff (s : Suite.t) :
  Suite.getCompleteSetup s <> []
  /\ In ("cd " +:+ filepath_Abs (Suite.Dir s)) (Suite.getCompleteSetup s)
  /\ (Suite.getCompleteCleanup s = []
      <-> Forall (fun x => Suite.Cleanup x = [])
            (s :: Suite.ancestorsNearestFirst s)).
Proof.
  repeat split.
  - rewrite getCompleteSetup_unfold. intros H.
    apply app_eq_nil in H as [_ H]. discriminate.
  - rewrite getCompleteSetup_unfold. apply in_or_app. right. now left.
  - intros H. rewrite getCompleteCleanup_ancestors in H.
    now apply flat_map_nil_iff.
  - intros H. rewrite getCompleteCleanup_ancestors.
    now apply flat_map_nil_iff.
Qed.

End MoreSuiteFacts.

(** ** Reading the input directory *)

Section ReadingFacts.

Context `{C : Command}.

(** X8: a path is ignored exactly when it starts with the [.git] path of
    the root, as a string: the directory [.git], what is below it, and
    any sibling whose name starts with [.git]. *)
Theorem getFilter_prefix (root s : string) :
  Cmd.getFilter root s = true
  <-> exists suffix, s = filepath_Join root ".git" +:+ suffix.
Proof.
  unfold Cmd.getFilter, strings_HasPrefix. cbn [existsb].
  rewrite orb_false_r. split.
  - apply prefix_split.
  - intros [suffix ->]. apply prefix_append.
Qed.

Lemma walkDirectories_filter (isIgnored : string -> bool)
  (calls : list (string * option bool)) :
  forall result,
    Cmd.walkDirectories isIgnored calls result
    = result
      ++ map fst (List.filter (Behaviour.keeps isIgnored)
                    (Behaviour.callsBeforeError calls)).
Proof.
  induction calls as [|[path [isDir|]] calls IH]; intros result; cbn.
  - now rewrite app_nil_r.
  - rewrite IH. unfold Behaviour.keeps at 2. cbn [fst snd].
    destruct isDir; cbn [andb]; [|reflexivity].
    destruct (isIgnored path); cbn; [reflexivity|].
    now rewrite <- app_assoc.
  - now rewrite app_nil_r.
Qed.

(** X9: the directories found are, in the order of the walk, the
    directories the walk visits before its first error that the filter does
    not ignore; what the walk would visit from the first error on is left
    out, and no error is reported. *)
Theorem getRecursiveDirectories_filter (root : string) :
  Cmd.getRecursiveDirectories root
  = map fst (List.filter (Behaviour.keeps (Cmd.getFilter root))
               (Behaviour.callsBeforeError (filepath_Walk root)))
  /\ forall dir,
       In dir (Cmd.getRecursiveDirectories root)
       <-> In (dir, Some true)
             (Behaviour.callsBeforeError (filepath_Walk root))
           /\ Cmd.getFilter root dir = false.
Proof.
  assert (Hdirs : Cmd.getRecursiveDirectories root
    = map fst (List.filter (Behaviour.keeps (Cmd.getFilter root))
                 (Behaviour.callsBeforeError (filepath_Walk root)))).
  { unfold Cmd.getRecursiveDirectories. now rewrite walkDirectories_filter. }
  split; [exact Hdirs|]. intros dir. rewrite Hdirs, in_map_iff. split.
  - intros ([path info] & <- & Hin). apply filter_In in Hin as [Hin Hkeeps].
    unfold Behaviour.keeps in Hkeeps. cbn [fst snd] in *.
    destruct info as [[|]|]; try discriminate.
    split; [exact Hin | now apply negb_true_iff].
  - intros [Hin Hfilter]. exists (dir, Some true). split; [reflexivity|].
    apply filter_In. split; [exact Hin|].
    unfold Behaviour.keeps. cbn [fst snd]. now rewrite Hfilter.
Qed.

(** X10: the examples are the parses of the README.md of each directory, in
    the order of the directories; a directory whose README.md does not
    parse is left out without an error. *)
Theorem parseExamples_omap (dirs : list string)
  (examples : list parser_Example) :
  Cmd.parseExamples dirs examples
  = examples
    ++ omap (fun dir => parser_ParseFile (path_Join dir "README.md")) dirs.
Proof.
  revert examples. induction dirs as [|dir dirs IH]; intros examples; cbn.
  - now rewrite app_nil_r.
  - rewrite IH. destruct (parser_ParseFile _); cbn; [|reflexivity].
    now rewrite <- app_assoc.
Qed.

End ReadingFacts.

(** ** Writing the compiled suites *)

Section CompiledFacts.

Context `{C : Command}.

Lemma path_Split_parts (p : string) :
  p = fst (path_Split p) +:+ snd (path_Split p)
  /\ Behaviour.occurrences "/"%char (snd (path_Split p)) = 0
  /\ (fst (path_Split p) = EmptyString
      \/ exists dir, fst (path_Split p) = dir +:+ "/").
Proof.
  induction p as [|c p (Hp & Hfile & Hdir)]; [now repeat split; left|].
  cbn [path_Split]. destruct (path_Split p) as [dir file]. cbn [fst snd] in *.
  destruct dir as [|d dir].
  - destruct (Ascii.eqb c "/"%char) eqn:Hc.
    + apply Ascii.eqb_eq in Hc as ->. cbn [fst snd]. repeat split.
      * now rewrite Hp.
      * exact Hfile.
      * right. now exists EmptyString.
    + cbn [fst snd]. repeat split.
      * now rewrite Hp.
      * cbn. now rewrite Hc, Hfile.
      * now left.
  - cbn [fst snd]. repeat split.
    + now rewrite Hp.
    + exact Hfile.
    + right. destruct Hdir as [Hdir|[dir' Hdir]]; [discriminate|].
      exists (String c dir'). now rewrite Hdir.
Qed.

(** X11: the directory made before a suite is written is the location of
    the suite up to and including its last slash, so the file written lies
    in it; a location without a slash makes the empty path. *)
Theorem save_directory (suite : Suite.t) (content : string) (st : Cmd.State) :
  exists dir file,
    Suite.Location suite = dir +:+ file
    /\ Behaviour.occurrences "/"%char file = 0
    /\ (dir = EmptyString \/ exists above, dir = above +:+ "/")
    /\ Cmd.heap (snd (Cmd.save suite content st)) = Cmd.heap st
    /\ Cmd.log (snd (Cmd.save suite content st))
       = Cmd.log st ++ [MkdirAll dir; WriteFile (dir +:+ file) content].
Proof.
  exists (fst (path_Split (Suite.Location suite))),
         (snd (path_Split (Suite.Location suite))).
  destruct (path_Split_parts (Suite.Location suite)) as (Hloc & Hfile & Hdir).
  rewrite save_run. cbn [snd Cmd.log Cmd.heap]. unfold filepath_Split.
  rewrite <- Hloc. now repeat split.
Qed.

(** *** What [Suite.String] leaves *)

Lemma rendered_twice (s : Suite.t) :
  Behaviour.rendered (Behaviour.rendered s) = Behaviour.rendered s.
Proof.
  unfold Behaviour.rendered. cbn. now rewrite defaultTests_twice.
Qed.

Lemma String_rendered (s : Suite.t) :
  fst (Suite.String_ (Behaviour.rendered s)) = fst (Suite.String_ s).
Proof.
  unfold Behaviour.rendered. cbn. unfold Suite.String_raw.
  rewrite header_set_Tests. cbn. now rewrite defaultTests_twice.
Qed.

Lemma compiledEventsOf_rendered (s : Suite.t) :
  Behaviour.compiledEventsOf (Behaviour.rendered s)
  = Behaviour.compiledEventsOf s.
Proof.
  unfold Behaviour.compiledEventsOf. now rewrite String_rendered.
Qed.

(** *** One pass of the loop *)

Lemma processGoSuites_cons (p : nat) (rest : list nat) (st : Cmd.State) :
  Cmd.processGoSuites (p :: rest) st
  = match Cmd.heap st !! p with
    | None => (Cmd.Panicked, st)
    | Some s =>
        match Behaviour.compiledError st s with
        | Some cause =>
            (Cmd.Failed (ErrCannotSaveSuite (Suite.Name s) cause),
             Behaviour.savedCompiled st p s)
        | None => Cmd.processGoSuites rest (Behaviour.savedCompiled st p s)
        end
    end.
Proof.
  cbn [Cmd.processGoSuites]. unfold Cmd.bind at 1. unfold Cmd.deref.
  destruct (Cmd.heap st !! p) as [s|]; [|reflexivity].
  destruct (filepath_Split (Suite.Location s)) as [dir file] eqn:Hsplit.
  unfold Cmd.bind, Cmd.os_MkdirAll, Cmd.assign, Cmd.WriteFile_, Cmd.fail.
  cbn. unfold Behaviour.compiledError, Behaviour.savedCompiled,
    Behaviour.compiledEventsOf, Behaviour.rendered.
  rewrite Hsplit. cbn. rewrite <- app_assoc. cbn.
  now destruct (os_WriteFile _ _ _).
Qed.

Lemma lookup_savedCompiled (st : Cmd.State) (p q : nat) (s : Suite.t) :
  Cmd.heap st !! p = Some s ->
  Cmd.heap (Behaviour.savedCompiled st p s) !! q
  = if decide (q = p) then Some (Behaviour.rendered s) else Cmd.heap st !! q.
Proof.
  intros Hp. cbn. destruct (decide (q = p)) as [->|Hne].
  - apply list_lookup_insert_eq. eapply lookup_lt_Some, Hp.
  - apply list_lookup_insert_ne. congruence.
Qed.

Lemma compiledEvents_savedCompiled (st : Cmd.State) (p q : nat) (s : Suite.t) :
  Cmd.heap st !! p = Some s ->
  Behaviour.compiledEvents (Cmd.heap (Behaviour.savedCompiled st p s)) q
  = Behaviour.compiledEvents (Cmd.heap st) q.
Proof.
  intros Hp. unfold Behaviour.compiledEvents.
  rewrite (lookup_savedCompiled st p q s Hp).
  destruct (decide (q = p)) as [->|_]; [|reflexivity].
  now rewrite Hp, compiledEventsOf_rendered.
Qed.

Lemma valid_savedCompiled (st : Cmd.State) (p : nat) (s : Suite.t)
  (suites : list nat) :
  Cmd.heap st !! p = Some s ->
  Behaviour.valid (Cmd.heap st) suites ->
  Behaviour.valid (Cmd.heap (Behaviour.savedCompiled st p s)) suites.
Proof.
  intros Hp Hvalid. unfold Behaviour.valid.
  eapply Forall_impl; [exact Hvalid|]. intros q Hq.
  rewrite (lookup_savedCompiled st p q s Hp).
  now destruct (decide (q = p)).
Qed.

(** The loop, when it returns without error. *)
Lemma processGoSuites_Done (suites : list nat) :
  forall st st',
    Cmd.processGoSuites suites st = (Cmd.Done tt, st') ->
    (forall q, Cmd.heap st' !! q
               = if decide (q ∈ suites)
                 then Behaviour.rendered <$> Cmd.heap st !! q
                 else Cmd.heap st !! q)
    /\ Cmd.log st'
       = Cmd.log st ++ flat_map (Behaviour.compiledEvents (Cmd.heap st)) suites.
Proof.
  induction suites as [|p rest IH]; intros st st' Hrun.
  - injection Hrun as <-. cbn. now rewrite app_nil_r.
  - rewrite processGoSuites_cons in Hrun.
    destruct (Cmd.heap st !! p) as [s|] eqn:Hp; [|discriminate].
    destruct (Behaviour.compiledError st s); [discriminate|].
    apply IH in Hrun as [Hheap Hlog]. split.
    + intros q. rewrite Hheap, (lookup_savedCompiled st p q s Hp).
      rewrite if_elem_of_cons.
      destruct (decide (q = p)) as [->|Hne]; [|reflexivity].
      rewrite Hp. destruct (decide (p ∈ rest)); [|reflexivity].
      change (Some (Behaviour.rendered (Behaviour.rendered s))
              = Some (Behaviour.rendered s)).
      now rewrite rendered_twice.
    + rewrite Hlog. cbn [Behaviour.savedCompiled Cmd.log flat_map].
      rewrite (flat_map_ext _ _
                 (fun q => compiledEvents_savedCompiled st p q s Hp)).
      unfold Behaviour.compiledEvents at 2. rewrite Hp.
      now rewrite <- app_assoc.
Qed.

Lemma processGoSuites_returns (suites : list nat) :
  Behaviour.acceptsEveryWrite ->
  forall st,
    Behaviour.valid (Cmd.heap st) suites ->
    exists st', Cmd.processGoSuites suites st = (Cmd.Done tt, st').
Proof.
  intros Haccepts. induction suites as [|p rest IH]; intros st Hvalid.
  - now exists st.
  - rewrite processGoSuites_cons.
    apply Forall_cons in Hvalid as [[s Hp] Hrest]. rewrite Hp.
    unfold Behaviour.compiledError. rewrite Haccepts.
    apply IH. now apply valid_savedCompiled.
Qed.

Lemma processGoSuites_Failed (suites : list nat) :
  forall st e st',
    Cmd.processGoSuites suites st = (Cmd.Failed e, st') ->
    exists name cause, e = ErrCannotSaveSuite name cause.
Proof.
  induction suites as [|p rest IH]; intros st e st' Hrun; [discriminate|].
  rewrite processGoSuites_cons in Hrun.
  destruct (Cmd.heap st !! p) as [s|]; [|discriminate].
  destruct (Behaviour.compiledError st s) as [cause|]; [|now apply IH in Hrun].
  injection Hrun as <- _. now exists (Suite.Name s), cause.
Qed.

(** X12: on a file system where no write fails, and with pointers that
    all point to a suite, the compiled suites are all written: the run
    returns no error, it makes the directory of each suite and writes the
    suite's compiled text at its location, in the order of the suites,
    and it leaves each of them as [Suite.String] does. *)
Theorem processGoSuites_writes_all (suites : list nat) (st : Cmd.State) :
  Behaviour.acceptsEveryWrite ->
  Behaviour.valid (Cmd.heap st) suites ->
  fst (Cmd.processGoSuites suites st) = Cmd.Done tt
  /\ (forall q,
        Cmd.heap (snd (Cmd.processGoSuites suites st)) !! q
        = if decide (q ∈ suites)
          then Behaviour.rendered <$> Cmd.heap st !! q
          else Cmd.heap st !! q)
  /\ Cmd.log (snd (Cmd.processGoSuites suites st))
     = Cmd.log st ++ flat_map (Behaviour.compiledEvents (Cmd.heap st)) suites.
Proof.
  intros Haccepts Hvalid.
  destruct (processGoSuites_returns suites Haccepts st Hvalid) as [st' Hrun].
  rewrite Hrun. cbn [fst snd].
  split; [reflexivity|]. now apply processGoSuites_Done.
Qed.

(** X13: when the writing of the compiled suites returns an error, it is
    the error of a write that failed and it names the suite of that write;
    the suites before it in the list have been written, that write is the
    last call made, and nothing is done for the suites after it. *)
Theorem processGoSuites_stops_at_failure (suites : list nat)
  (st st' : Cmd.State) (e : error) :
  Cmd.processGoSuites suites st = (Cmd.Failed e, st') ->
  exists written p rest s cause,
    suites = written ++ p :: rest
    /\ Cmd.heap st !! p = Some s
    /\ e = ErrCannotSaveSuite (Suite.Name s) cause
    /\ Cmd.log st'
       = Cmd.log st
         ++ flat_map (Behaviour.compiledEvents (Cmd.heap st)) written
         ++ [MkdirAll (fst (filepath_Split (Suite.Location s)));
             WriteFile (Suite.Location s) (fst (Suite.String_ s))].
Proof.
  revert st. induction suites as [|p rest IH]; intros st Hrun; [discriminate|].
  rewrite processGoSuites_cons in Hrun.
  destruct (Cmd.heap st !! p) as [s|] eqn:Hp; [|discriminate].
  destruct (Behaviour.compiledError st s) as [cause|].
  - injection Hrun as <- <-. exists [], p, rest, s, cause.
    now repeat split.
  - apply IH in Hrun as (written & p' & rest' & s' & cause & -> & Hp' & -> & Hlog).
    rewrite (lookup_savedCompiled st p p' s Hp) in Hp'.
    rewrite (flat_map_ext _ _
               (fun q => compiledEvents_savedCompiled st p q s Hp)) in Hlog.
    assert (Hs' : exists s0, Cmd.heap st !! p' = Some s0
                             /\ Suite.Name s0 = Suite.Name s'
                             /\ Behaviour.compiledEventsOf s0
                                = Behaviour.compiledEventsOf s').
    { destruct (decide (p' = p)) as [->|_].
      - injection Hp' as <-. exists s. split; [exact Hp|]. split; [reflexivity|].
        symmetry. apply compiledEventsOf_rendered.
      - now exists s'. }
    destruct Hs' as (s0 & Hp0 & Hname & Hevents).
    exists (p :: written), p', rest', s0, cause. repeat split.
    + exact Hp0.
    + now rewrite Hname.
    + rewrite Hlog. cbn [Behaviour.savedCompiled Cmd.log flat_map].
      unfold Behaviour.compiledEvents at 2. rewrite Hp.
      fold (Behaviour.compiledEventsOf s0). rewrite Hevents.
      unfold Behaviour.compiledEventsOf at 3.
      now rewrite <- !app_assoc.
Qed.

(** X14: writing the compiled suites a second time changes no suite and
    makes the same calls again, with the same texts. *)
Theorem processGoSuites_again (suites : list nat) (st st1 st2 : Cmd.State) :
  Cmd.processGoSuites suites st = (Cmd.Done tt, st1) ->
  Cmd.processGoSuites suites st1 = (Cmd.Done tt, st2) ->
  Cmd.heap st2 = Cmd.heap st1
  /\ Cmd.log st1
     = Cmd.log st ++ flat_map (Behaviour.compiledEvents (Cmd.heap st)) suites
  /\ Cmd.log st2
     = Cmd.log st1 ++ flat_map (Behaviour.compiledEvents (Cmd.heap st)) suites.
Proof.
  intros Hfirst Hsecond.
  apply processGoSuites_Done in Hfirst as [Hheap1 Hlog1].
  apply processGoSuites_Done in Hsecond as [Hheap2 Hlog2].
  repeat split.
  - apply list_eq. intros q. rewrite Hheap2.
    destruct (decide (q ∈ suites)) as [Hin|_]; [|reflexivity].
    rewrite Hheap1, decide_True by exact Hin.
    destruct (Cmd.heap st !! q) as [s|]; [|reflexivity].
    change (Some (Behaviour.rendered (Behaviour.rendered s))
            = Some (Behaviour.rendered s)).
    now rewrite rendered_twice.
  - exact Hlog1.
  - rewrite Hlog2. f_equal. apply flat_map_ext_In. intros p Hin.
    unfold Behaviour.compiledEvents.
    rewrite Hheap1, decide_True by now apply list_elem_of_In.
    destruct (Cmd.heap st !! p) as [s|]; [|reflexivity].
    apply compiledEventsOf_rendered.
Qed.

End CompiledFacts.

(** ** Selecting for the shell format *)

Section SelectionFacts.

Context `{C : Command}.



Lemma valid_saved (st : Cmd.State) (p : nat) (s : Suite.t)
  (tests : list Test.t) (suites : list nat) :
  Cmd.heap st !! p = Some s ->
  Behaviour.valid (Cmd.heap st) suites ->
  Behaviour.valid (Cmd.heap (Selection.saved st p s tests)) suites.
Proof.
  intros Hp Hvalid. unfold Behaviour.valid.
  eapply Forall_impl; [exact Hvalid|]. intros q Hq.
  rewrite (lookup_saved st p q s tests Hp).
  now destruct (decide (q = p)).
Qed.

Lemma matchSuites_returns (re : Regexp) (suites : list nat) :
  Behaviour.acceptsEveryWrite ->
  forall b st,
    Behaviour.valid (Cmd.heap st) suites ->
    exists b' st', Cmd.matchSuites re suites b st = (Cmd.Done b', st').
Proof.
  intros Haccepts. induction suites as [|p rest IH]; intros b st Hvalid.
  - now exists b, st.
  - rewrite matchSuites_cons.
    apply Forall_cons in Hvalid as [[s Hp] Hrest]. rewrite Hp.
    destruct (Selection.nameMatches re s); [|now apply IH].
    unfold Selection.saveError. rewrite Haccepts.
    apply IH. now apply valid_saved.
Qed.

Lemma matchTests_returns (re : Regexp) (suites : list nat) :
  Behaviour.acceptsEveryWrite ->
  forall b st,
    Behaviour.valid (Cmd.heap st) suites ->
    exists b' st', Cmd.matchTests re suites b st = (Cmd.Done b', st').
Proof.
  intros Haccepts. induction suites as [|p rest IH]; intros b st Hvalid.
  - now exists b, st.
  - rewrite matchTests_cons.
    apply Forall_cons in Hvalid as [[s Hp] Hrest]. rewrite Hp.
    destruct (Cmd.matchedTests re (Suite.Tests s)) as [|t matched] eqn:Hs;
      [now apply IH|].
    unfold Selection.saveError. rewrite Haccepts.
    apply IH. now apply valid_saved.
Qed.

(** The two loops in a row, when they return. *)
Lemma matchLoops_Done (re : Regexp) (suites : list nat)
  (st st1 st2 : Cmd.State) (b1 b2 : bool) :
  Cmd.matchSuites re suites false st = (Cmd.Done b1, st1) ->
  Cmd.matchTests re suites b1 st1 = (Cmd.Done b2, st2) ->
  (forall q, Cmd.heap st2 !! q
             = if decide (q ∈ suites)
               then (fun s => Suite.set_Tests s (Selection.selectedTests re s))
                      <$> Cmd.heap st !! q
               else Cmd.heap st !! q)
  /\ Cmd.log st2
     = Cmd.log st
       ++ flat_map (Selection.writtenByName re (Cmd.heap st)) suites
       ++ flat_map (Selection.writtenByTests re (Cmd.heap st)) suites
  /\ b2 = Selection.anyMatch re (Cmd.heap st) suites.
Proof.
  intros H1 H2.
  apply matchSuites_Done in H1 as (Hheap1 & Hlog1 & Hb1).
  apply matchTests_Done in H2 as (Hheap2 & Hlog2 & Hb2).
  repeat split.
  - intros q. rewrite Hheap2, Hheap1.
    destruct (decide (q ∈ suites)); [|reflexivity].
    destruct (Cmd.heap st !! q) as [s|]; [|reflexivity].
    cbn. now rewrite afterTests_afterNames.
  - rewrite Hlog2, Hlog1, <- app_assoc. do 2 f_equal.
    apply flat_map_ext_In. intros p Hin.
    unfold Selection.writtenForTests, Selection.writtenByTests.
    rewrite Hheap1, decide_True by now apply list_elem_of_In.
    destruct (Cmd.heap st !! p) as [s|]; [|reflexivity].
    cbn. unfold Selection.afterNames.
    now destruct (Selection.nameMatches re s).
  - rewrite Hb2, Hb1. cbn [orb]. unfold Selection.anyMatch.
    assert (Heach : forall p, In p suites ->
      match Cmd.heap st !! p with
      | Some s => Selection.suiteMatches re s
      | None => false
      end
      = match Cmd.heap st !! p with
        | Some s => Selection.nameMatches re s
        | None => false
        end
        || match Cmd.heap st1 !! p with
           | Some s =>
               existsb (fun t => Regexp_MatchString re (Test.Name t))
                 (Suite.Tests s)
           | None => false
           end).
    { intros p Hin. rewrite Hheap1, decide_True by now apply list_elem_of_In.
      destruct (Cmd.heap st !! p) as [s|]; [|reflexivity].
      cbn. unfold Selection.suiteMatches, Selection.afterNames.
      now destruct (Selection.nameMatches re s). }
    clear -Heach. induction suites as [|p rest IH]; [reflexivity|].
    cbn [existsb]. rewrite (Heach p) by now left.
    rewrite <- IH by (intros q Hq; apply Heach; now right).
    destruct (match Cmd.heap st !! p with
              | Some s => Selection.nameMatches re s
              | None => false
              end);
    destruct (match Cmd.heap st1 !! p with
              | Some s => existsb _ (Suite.Tests s)
              | None => false
              end);
    cbn; rewrite ?orb_true_r; try reflexivity.
    all: now destruct (existsb _ rest).
Qed.

Lemma valid_after (h h' : list Suite.t) (suites : list nat)
  (f : Suite.t -> Suite.t) :
  (forall q, h' !! q = if decide (q ∈ suites) then f <$> h !! q else h !! q) ->
  Behaviour.valid h suites -> Behaviour.valid h' suites.
Proof.
  intros Hheap Hvalid. unfold Behaviour.valid.
  eapply Forall_impl; [exact Hvalid|]. intros q [s Hq]. rewrite Hheap, Hq.
  now destruct (decide (q ∈ suites)).
Qed.

(** X16: on a file system where no write fails, and with pointers that
    all point to a suite, the selection returns no error exactly when a
    suite or a test matches, and the no-matches error otherwise. *)
Theorem processBashSuites_succeeds_iff (re : Regexp) (suites : list nat)
  (st : Cmd.State) :
  Behaviour.acceptsEveryWrite ->
  Behaviour.valid (Cmd.heap st) suites ->
  fst (Cmd.processBashSuites suites re st)
  = if Selection.anyMatch re (Cmd.heap st) suites
    then Cmd.Done tt
    else Cmd.Failed (ErrNoMatchesFound (Regexp_String re)).
Proof.
  intros Haccepts Hvalid. unfold Cmd.processBashSuites, Cmd.bind.
  destruct (matchSuites_returns re suites Haccepts false st Hvalid)
    as (b1 & st1 & H1).
  rewrite H1.
  assert (Hvalid1 : Behaviour.valid (Cmd.heap st1) suites).
  { pose proof (matchSuites_Done re suites _ _ _ _ H1) as (Hheap1 & _ & _).
    exact (valid_after _ _ _ _ Hheap1 Hvalid). }
  destruct (matchTests_returns re suites Haccepts b1 st1 Hvalid1)
    as (b2 & st2 & H2).
  rewrite H2.
  destruct (matchLoops_Done re suites st st1 st2 b1 b2 H1 H2) as (_ & _ & ->).
  now destruct (Selection.anyMatch re (Cmd.heap st) suites).
Qed.

Lemma processBashSuites_Done (re : Regexp) (suites : list nat)
  (st st' : Cmd.State) :
  Cmd.processBashSuites suites re st = (Cmd.Done tt, st') ->
  (forall q, Cmd.heap st' !! q
             = if decide (q ∈ suites)
               then (fun s => Suite.set_Tests s (Selection.selectedTests re s))
                      <$> Cmd.heap st !! q
               else Cmd.heap st !! q)
  /\ Cmd.log st'
     = Cmd.log st
       ++ flat_map (Selection.writtenByName re (Cmd.heap st)) suites
       ++ flat_map (Selection.writtenByTests re (Cmd.heap st)) suites.
Proof.
  unfold Cmd.processBashSuites, Cmd.bind. intros Hrun.
  destruct (Cmd.matchSuites re suites false st) as [[b1|e1|] st1] eqn:H1;
    [|discriminate..].
  destruct (Cmd.matchTests re suites b1 st1) as [[b2|e2|] st2] eqn:H2;
    [|discriminate..].
  destruct b2; [|discriminate]. injection Hrun as <-.
  destruct (matchLoops_Done re suites st st1 st2 b1 true H1 H2)
    as (Hheap & Hlog & _).
  now split.
Qed.

(** The tests a selection leaves are left by another with the same
    pattern. *)
Lemma selectedTests_twice (re : Regexp) (s : Suite.t) :
  Selection.selectedTests re
    (Suite.set_Tests s (Selection.selectedTests re s))
  = Selection.selectedTests re s.
Proof.
  unfold Selection.selectedTests. rewrite nameMatches_set_Tests.
  destruct (Selection.nameMatches re s); [reflexivity|].
  cbn [Suite.Tests Suite.set_Tests].
  destruct (Cmd.matchedTests re (Suite.Tests s)) as [|t matched] eqn:Hs.
  - now rewrite Hs.
  - rewrite <- Hs, matchedTests_twice, Hs. reflexivity.
Qed.

Lemma written_after_selection (re : Regexp) (s : Suite.t) :
  let s' := Suite.set_Tests s (Selection.selectedTests re s) in
  Selection.nameMatches re s' = Selection.nameMatches re s
  /\ Selection.scriptEvents s' = Selection.scriptEvents s
  /\ match Cmd.matchedTests re (Suite.Tests s') with
     | [] => Cmd.matchedTests re (Suite.Tests s) = []
            \/ Selection.nameMatches re s = true
     | _ :: _ => Cmd.matchedTests re (Suite.Tests s) <> []
                /\ Selection.nameMatches re s = false
     end.
Proof.
  cbv zeta. split; [reflexivity|]. split; [apply scriptEvents_set_Tests|].
  cbn [Suite.Tests Suite.set_Tests]. unfold Selection.selectedTests.
  destruct (Selection.nameMatches re s); [now right|].
  destruct (Cmd.matchedTests re (Suite.Tests s)) as [|t matched] eqn:Hs.
  - rewrite Hs. now left.
  - rewrite <- Hs, matchedTests_twice, Hs. split; [discriminate|reflexivity].
Qed.

(** X17: a second selection with the same pattern changes no suite and
    saves the same scripts again, in the same order. *)
Theorem processBashSuites_again (re : Regexp) (suites : list nat)
  (st st1 st2 : Cmd.State) :
  Cmd.processBashSuites suites re st = (Cmd.Done tt, st1) ->
  Cmd.processBashSuites suites re st1 = (Cmd.Done tt, st2) ->
  Cmd.heap st2 = Cmd.heap st1
  /\ exists saved,
       Cmd.log st1 = Cmd.log st ++ saved
       /\ Cmd.log st2 = Cmd.log st1 ++ saved.
Proof.
  intros Hfirst Hsecond.
  apply processBashSuites_Done in Hfirst as [Hheap1 Hlog1].
  apply processBashSuites_Done in Hsecond as [Hheap2 Hlog2].
  split.
  - apply list_eq. intros q. rewrite Hheap2.
    destruct (decide (q ∈ suites)) as [Hin|_]; [|reflexivity].
    rewrite Hheap1, decide_True by exact Hin.
    destruct (Cmd.heap st !! q) as [s|]; [|reflexivity].
    cbn. f_equal. rewrite selectedTests_twice. reflexivity.
  - exists (flat_map (Selection.writtenByName re (Cmd.heap st)) suites
            ++ flat_map (Selection.writtenByTests re (Cmd.heap st)) suites).
    split; [exact Hlog1|]. rewrite Hlog2. f_equal. f_equal.
    + apply flat_map_ext_In. intros p Hin. unfold Selection.writtenByName.
      rewrite Hheap1, decide_True by now apply list_elem_of_In.
      destruct (Cmd.heap st !! p) as [s|]; [|reflexivity]. cbn.
      destruct (written_after_selection re s) as (-> & -> & _). reflexivity.
    + apply flat_map_ext_In. intros p Hin. unfold Selection.writtenByTests.
      rewrite Hheap1, decide_True by now apply list_elem_of_In.
      destruct (Cmd.heap st !! p) as [s|]; [|reflexivity].
      change ((fun s0 => Suite.set_Tests s0 (Selection.selectedTests re s0))
                <$> Some s)
        with (Some (Suite.set_Tests s (Selection.selectedTests re s))).
      cbv beta iota.
      destruct (written_after_selection re s) as (-> & -> & Htests).
      cbv zeta in Htests.
      destruct (Selection.nameMatches re s); [reflexivity|].
      destruct (Cmd.matchedTests re
                  (Suite.Tests
                     (Suite.set_Tests s (Selection.selectedTests re s)))).
      * destruct Htests as [->|?]; [reflexivity|discriminate].
      * destruct Htests as [Hsome _].
        now destruct (Cmd.matchedTests re (Suite.Tests s)).
Qed.

Lemma written_once (re : Regexp) (h : list Suite.t) (p : nat) :
  length (List.filter Behaviour.isWrite (Selection.writtenByName re h p))
  + length (List.filter Behaviour.isWrite (Selection.writtenByTests re h p))
  = if Behaviour.selected re h p then 1 else 0.
Proof.
  unfold Selection.writtenByName, Selection.writtenByTests, Behaviour.selected.
  destruct (h !! p) as [s|]; [|reflexivity].
  unfold Selection.suiteMatches.
  destruct (Selection.nameMatches re s); [reflexivity|]. cbn [orb].
  destruct (Cmd.matchedTests re (Suite.Tests s)) as [|t matched] eqn:Hs.
  - apply matchedTests_nil in Hs. now rewrite Hs.
  - destruct (existsb _ (Suite.Tests s)) eqn:Hex; [reflexivity|].
    apply matchedTests_nil in Hex. congruence.
Qed.

Lemma writes_flat_map (f : nat -> list event) (suites : list nat) :
  length (List.filter Behaviour.isWrite (flat_map f suites))
  = list_sum (map (fun p => length (List.filter Behaviour.isWrite (f p))) suites).
Proof.
  induction suites as [|p rest IH]; [reflexivity|]. cbn.
  now rewrite List.filter_app, length_app, IH.
Qed.

(** X18: a selection that returns no error writes one file for each entry
    of the list whose suite matches by its name or by a test, and none for
    the others; a suite that matches both ways is written once. *)
Theorem processBashSuites_writes_once (re : Regexp) (suites : list nat)
  (st st' : Cmd.State) :
  Cmd.processBashSuites suites re st = (Cmd.Done tt, st') ->
  length (List.filter Behaviour.isWrite (Cmd.log st'))
  = length (List.filter Behaviour.isWrite (Cmd.log st))
    + length (List.filter (Behaviour.selected re (Cmd.heap st)) suites).
Proof.
  intros Hrun. apply processBashSuites_Done in Hrun as [_ Hlog].
  rewrite Hlog, !List.filter_app, !length_app, !writes_flat_map.
  f_equal. clear Hlog.
  induction suites as [|p rest IH]; [reflexivity|].
  cbn [map List.filter]. unfold list_sum in *. cbn [fold_right].
  pose proof (written_once re (Cmd.heap st) p) as Hp.
  destruct (Behaviour.selected re (Cmd.heap st) p); cbn [length]; lia.
Qed.

End SelectionFacts.

(** ** The run as a whole *)

Section RunFacts.

Context `{C : Command}.

(** X19: in script mode a pattern that does not compile is reported when
    the examples have been parsed and linked and the suites generated, and
    before anything is selected: the run returns the error of the
    compilation as it is, the suites are in memory, and the one call made to
    the file system is the creation of the output directory. *)
Theorem RunE_pattern_error (flagMatch : string) (args : list string)
  (st : Cmd.State) (linked : list linker_LinkedExample) (cause : string) :
  let c0 := config_FromArgs args in
  let c := mkConfig (InputDir c0) (OutputDir c0) true flagMatch in
  flagMatch <> EmptyString ->
  linker_Link (InputDir c0)
    (Cmd.parseExamples (Cmd.getRecursiveDirectories (InputDir c0)) [])
  = inl linked ->
  regexp_Compile flagMatch = inr cause ->
  Cmd.RunE flagMatch (Some true) args st
  = (Cmd.Failed (ErrRegexpCompile cause),
     Cmd.mkState (Cmd.heap st ++ fst (generator_Generate c linked))
       (Cmd.log st ++ [MkdirAll (OutputDir c0)])).
Proof.
  intros c0 c Hmatch Hlink Hpattern. unfold Cmd.RunE.
  apply String.eqb_neq in Hmatch. rewrite Hmatch. cbn [andb].
  unfold Cmd.bind at 1. unfold Cmd.os_MkdirAll. cbn [InputDir OutputDir].
  fold c0. rewrite Hlink. fold c.
  unfold Cmd.bind, Cmd.Generate. cbn [Cmd.heap Cmd.log negb].
  destruct (generator_Generate c linked) as [suites pointers].
  now rewrite Hpattern.
Qed.

(** X20: the errors a run that is not in script mode can return are that
    the examples cannot be built and that a suite cannot be saved; it
    returns neither the error of the flags, nor the error of a pattern that
    does not compile, nor the no-matches error. *)
Theorem RunE_compiled_errors (flagMatch : string) (flagBash : option bool)
  (args : list string) (st : Cmd.State) (e : error) :
  flagBash <> Some true ->
  fst (Cmd.RunE flagMatch flagBash args st) = Cmd.Failed e ->
  ((exists cause, e = ErrCannotBuildExamples cause)
   \/ (exists name cause, e = ErrCannotSaveSuite name cause))
  /\ e <> ErrBashWithoutMatch
  /\ (forall cause, e <> ErrRegexpCompile cause)
  /\ (forall pattern, e <> ErrNoMatchesFound pattern).
Proof.
  intros Hbash Hrun.
  assert (Hkind : (exists cause, e = ErrCannotBuildExamples cause)
                  \/ (exists name cause, e = ErrCannotSaveSuite name cause)).
  { revert Hrun. unfold Cmd.RunE.
    assert (Hfalse : match flagBash with Some value => value | None => false end
                     = false).
    { destruct flagBash as [[|]|]; [now destruct Hbash | reflexivity..]. }
    rewrite Hfalse. cbn [andb negb].
    unfold Cmd.bind at 1. unfold Cmd.os_MkdirAll.
    destruct (linker_Link _ _) as [linked|cause].
    - unfold Cmd.bind, Cmd.Generate. cbn [Cmd.heap Cmd.log].
      destruct (generator_Generate _ linked) as [suites pointers].
      destruct (Cmd.processGoSuites _ _) as [[[]|e'|] st'] eqn:Hgo;
        cbn [fst]; try discriminate.
      intros [= <-]. right. now apply processGoSuites_Failed in Hgo.
    - cbn. intros [= <-]. left. now exists cause. }
  split; [exact Hkind|].
  destruct Hkind as [[cause ->]|(name & cause & ->)]; repeat split; discriminate.
Qed.

Lemma flat_map_map {A B D : Type} (f : B -> list D) (g : A -> B)
  (l : list A) :
  flat_map f (map g l) = flat_map (fun x => f (g x)) l.
Proof.
  induction l as [|x l IH]; [reflexivity|]. cbn. now rewrite IH.
Qed.

Lemma compiledEvents_app (h suites : list Suite.t) (p : nat) :
  Behaviour.compiledEvents (h ++ suites) (length h + p)
  = Behaviour.compiledEvents suites p.
Proof.
  unfold Behaviour.compiledEvents.
  rewrite lookup_app_r by lia. now replace (length h + p - length h) with p by lia.
Qed.

(** X21: a run that is not in script mode, whose examples link, whose
    generator returns pointers to suites it has made, on a file system
    where no write fails, returns no error; after the output directory it
    makes the directory of each suite returned and writes the suite's
    compiled text at its location, in the order in which the generator
    returned them. *)
Theorem RunE_compiled_writes_all (flagMatch : string) (flagBash : option bool)
  (args : list string) (st : Cmd.State) (linked : list linker_LinkedExample) :
  let c0 := config_FromArgs args in
  let c := mkConfig (InputDir c0) (OutputDir c0) false flagMatch in
  flagBash <> Some true ->
  Behaviour.acceptsEveryWrite ->
  linker_Link (InputDir c0)
    (Cmd.parseExamples (Cmd.getRecursiveDirectories (InputDir c0)) [])
  = inl linked ->
  Behaviour.valid (fst (generator_Generate c linked))
    (snd (generator_Generate c linked)) ->
  fst (Cmd.RunE flagMatch flagBash args st) = Cmd.Done tt
  /\ Cmd.log (snd (Cmd.RunE flagMatch flagBash args st))
     = Cmd.log st
       ++ MkdirAll (OutputDir c0)
          :: flat_map
               (Behaviour.compiledEvents (fst (generator_Generate c linked)))
               (snd (generator_Generate c linked)).
Proof.
  intros c0 c Hbash Haccepts Hlink Hvalid. unfold Cmd.RunE.
  assert (Hfalse : match flagBash with Some value => value | None => false end
                   = false).
  { destruct flagBash as [[|]|]; [now destruct Hbash | reflexivity..]. }
  rewrite Hfalse. cbn [andb negb].
  unfold Cmd.bind at 1. unfold Cmd.os_MkdirAll. cbn [InputDir OutputDir].
  fold c0. rewrite Hlink. fold c.
  unfold Cmd.bind, Cmd.Generate. cbn [Cmd.heap Cmd.log].
  destruct (generator_Generate c linked) as [suites pointers].
  cbn [fst snd] in *.
  set (st1 := Cmd.mkState (Cmd.heap st ++ suites)
                (Cmd.log st ++ [MkdirAll (OutputDir c0)])).
  set (pointers' := map (fun p => length (Cmd.heap st) + p) pointers).
  assert (Hvalid1 : Behaviour.valid (Cmd.heap st1) pointers').
  { unfold Behaviour.valid, pointers'. apply Forall_map.
    eapply Forall_impl; [exact Hvalid|]. intros p Hp. cbn.
    rewrite lookup_app_r by lia.
    now replace (length (Cmd.heap st) + p - length (Cmd.heap st)) with p by lia. }
  destruct (processGoSuites_returns pointers' Haccepts st1 Hvalid1)
    as [st' Hrun].
  rewrite Hrun. cbn [fst snd]. split; [reflexivity|].
  apply processGoSuites_Done in Hrun as [_ Hlog]. rewrite Hlog.
  unfold st1, pointers'. cbn [Cmd.log Cmd.heap]. rewrite <- app_assoc.
  cbn [app]. do 2 f_equal. rewrite flat_map_map.
  apply flat_map_ext. intros p. apply compiledEvents_app.
Qed.

End RunFacts.

(** ** Runs on the scenarios *)

Section ScenarioRuns.

#[local] Existing Instance Sample.generator.

(** C3 as stated fails: on the chain root, mid, leaf the setup of leaf is
    not root's and mid's Run commands followed by a directory change and
    [C]: it changes to root's directory before root's commands and to
    mid's before mid's.  Nor are the suites above always taken from the root
    down: with the parents mid and root, root comes first, then mid, then
    root again. *)
Lemma getCompleteSetup_not_runs_alone :
  Suite.getCompleteSetup Sample.leaf
  = ["cd /work/root"; "do r"; "cd /work/mid"; "do m"; "cd /work/leaf"; "C"]
  /\ flat_map Suite.Run (Suite.ancestors Sample.leaf)
     ++ ["cd " +:+ filepath_Abs (Suite.Dir Sample.leaf)]
     ++ Suite.Run Sample.leaf
     = ["do r"; "do m"; "cd /work/leaf"; "C"]
  /\ Suite.getCompleteSetup Sample.leaf
     <> flat_map Suite.Run (Suite.ancestors Sample.leaf)
        ++ ["cd " +:+ filepath_Abs (Suite.Dir Sample.leaf)]
        ++ Suite.Run Sample.leaf
  /\ Suite.ancestors Scenario.crossed
     = [Sample.root; Sample.mid; Sample.root]
  /\ Suite.getCompleteSetup Scenario.crossed
     = ["cd /work/root"; "do r"; "cd /work/mid"; "do m";
        "cd /work/root"; "do r"; "cd /work/crossed"; "do x"].
Proof. repeat split. discriminate. Qed.

Lemma getCompleteSetup_cd_per_ancestor_witness :
  Suite.isChain Sample.leaf = true
  /\ Suite.ancestors Sample.leaf = rev [Sample.mid; Sample.root]
  /\ Suite.getCompleteSetup Sample.leaf
     = ("cd /work/root" :: Suite.Run Sample.root)
       ++ ("cd /work/mid" :: Suite.Run Sample.mid)
       ++ ["cd /work/leaf"; "C"].
Proof.
  pose proof (getCompleteSetup_cd_per_ancestor Sample.leaf)
    as (Hsetup & _ & Hchain & _).
  split; [reflexivity|]. split.
  - exact (Hchain eq_refl).
  - exact Hsetup.
Defined.

Lemma Suite_String_commandless_witness :
  forallb Behaviour.commandless (Suite.Tests Scenario.hollow) = true
  /\ Suite.String_raw Scenario.hollow
     = Suite.header Scenario.hollow
       +:+ "func (s *Suite) Test() {}func (s *Suite) Test() {}".
Proof.
  split; [reflexivity|].
  apply (Suite_String_commandless Scenario.hollow). reflexivity.
Defined.


Lemma getCompleteSetup_shared_parent_witness :
  Suite.Parents Scenario.both = [Scenario.left; Scenario.right]
  /\ Suite.getCompleteSetup Scenario.both
     = ["cd /work/shared"; "do s"; "cd /work/left"; "do a";
        "cd /work/shared"; "do s"; "cd /work/right"; "do b";
        "cd /work/both"; "do c"]
  /\ Suite.getCompleteCleanup Scenario.both
     = ["undo c"; "undo a"; "undo s"; "undo b"; "undo s"].
Proof.
  split; [reflexivity|].
  apply (getCompleteSetup_shared_parent
           Scenario.both Scenario.left Scenario.right Scenario.shared);
    reflexivity.
Defined.

(** The walk of the scenario: [.github] is ignored with [.git], and what
    follows the error is not visited. *)
Example getRecursiveDirectories_scenario :
  Cmd.getRecursiveDirectories (C := Scenario.refusing EmptyString) "in"
  = ["in"].
Proof. reflexivity. Qed.

Lemma selection_accepts : Behaviour.acceptsEveryWrite (C := Sample.selectionCommand).
Proof. intros trace name content. reflexivity. Qed.

Lemma selection_valid :
  Behaviour.valid (Cmd.heap Sample.selectionState) [0; 1].
Proof. repeat constructor; eexists; reflexivity. Qed.

Lemma processGoSuites_writes_all_witness :
  Behaviour.acceptsEveryWrite (C := Sample.selectionCommand)
  /\ Behaviour.valid (Cmd.heap Sample.selectionState) [0; 1]
  /\ fst Scenario.compile = Cmd.Done tt
  /\ Cmd.log (snd Scenario.compile)
     = Behaviour.compiledEventsOf Sample.A
       ++ Behaviour.compiledEventsOf Sample.B.
Proof.
  split; [exact selection_accepts|]. split; [exact selection_valid|].
  pose proof (processGoSuites_writes_all (C := Sample.selectionCommand)
                [0; 1] Sample.selectionState selection_accepts selection_valid)
    as (Hdone & _ & Hlog).
  split; [exact Hdone | exact Hlog].
Defined.

Lemma processGoSuites_stops_at_failure_witness :
  Scenario.compileRefused
  = (Cmd.Failed (ErrCannotSaveSuite "B" "permission denied"),
     snd Scenario.compileRefused)
  /\ exists written p rest s cause,
       [0; 1] = written ++ p :: rest
       /\ Cmd.heap Sample.selectionState !! p = Some s
       /\ ErrCannotSaveSuite "B" "permission denied"
          = ErrCannotSaveSuite (Suite.Name s) cause
       /\ Cmd.log (snd Scenario.compileRefused)
          = Cmd.log Sample.selectionState
            ++ flat_map
                 (Behaviour.compiledEvents (Cmd.heap Sample.selectionState))
                 written
            ++ [MkdirAll (fst (filepath_Split (Suite.Location s)));
                WriteFile (Suite.Location s) (fst (Suite.String_ s))].
Proof.
  split; [reflexivity|].
  apply (processGoSuites_stops_at_failure
           (C := Scenario.refusing "out/b/suite.sh")
           [0; 1] Sample.selectionState (snd Scenario.compileRefused)
           (ErrCannotSaveSuite "B" "permission denied") eq_refl).
Defined.

Lemma processGoSuites_again_witness :
  Scenario.compile = (Cmd.Done tt, snd Scenario.compile)
  /\ Cmd.heap
       (snd (Cmd.processGoSuites (C := Sample.selectionCommand) [0; 1]
               (snd Scenario.compile)))
     = Cmd.heap (snd Scenario.compile).
Proof.
  split; [reflexivity|].
  apply (processGoSuites_again (C := Sample.selectionCommand) [0; 1]
           Sample.selectionState (snd Scenario.compile)
           (snd (Cmd.processGoSuites (C := Sample.selectionCommand) [0; 1]
                   (snd Scenario.compile)))
           eq_refl eq_refl).
Defined.

Lemma processBashSuites_succeeds_iff_witness :
  Behaviour.acceptsEveryWrite (C := Sample.selectionCommand)
  /\ Behaviour.valid (Cmd.heap Sample.selectionState) [0; 1]
  /\ fst (Sample.select "T2") = Cmd.Done tt
  /\ fst (Sample.select "T7") = Cmd.Failed (ErrNoMatchesFound "T7").
Proof.
  split; [exact selection_accepts|]. split; [exact selection_valid|]. split.
  - apply (processBashSuites_succeeds_iff (C := Sample.selectionCommand)
             "T2" [0; 1] Sample.selectionState
             selection_accepts selection_valid).
  - apply (processBashSuites_succeeds_iff (C := Sample.selectionCommand)
             "T7" [0; 1] Sample.selectionState
             selection_accepts selection_valid).
Defined.

Lemma processBashSuites_again_witness :
  Sample.select "T" = (Cmd.Done tt, snd (Sample.select "T"))
  /\ Cmd.heap
       (snd (Cmd.processBashSuites (C := Sample.selectionCommand) [0; 1] "T"
               (snd (Sample.select "T"))))
     = Cmd.heap (snd (Sample.select "T")).
Proof.
  split; [reflexivity|].
  apply (processBashSuites_again (C := Sample.selectionCommand) "T" [0; 1]
           Sample.selectionState (snd (Sample.select "T"))
           (snd (Cmd.processBashSuites (C := Sample.selectionCommand)
                   [0; 1] "T" (snd (Sample.select "T"))))
           eq_refl eq_refl).
Defined.

(** [A] matches the pattern [A] by its name only, [B] not at all; both
    match [T] by their tests. *)
Lemma processBashSuites_writes_once_witness :
  Sample.select "T" = (Cmd.Done tt, snd (Sample.select "T"))
  /\ length (List.filter Behaviour.isWrite (Cmd.log (snd (Sample.select "T"))))
     = 2.
Proof.
  split; [reflexivity|].
  apply (processBashSuites_writes_once (C := Sample.selectionCommand)
           "T" [0; 1] Sample.selectionState (snd (Sample.select "T")) eq_refl).
Defined.

Lemma RunE_pattern_error_witness :
  regexp_Compile (Command := Scenario.refusing "out/b/suite.sh") "("
  = inr "missing closing )"
  /\ Scenario.badPatternRun
     = (Cmd.Failed (ErrRegexpCompile "missing closing )"),
        Cmd.mkState [Sample.A; Sample.B] [MkdirAll "out"]).
Proof.
  split; [reflexivity|].
  apply (RunE_pattern_error (C := Scenario.refusing "out/b/suite.sh")
           "(" ["in"; "out"] Sample.emptyState ["in/README.md"]
           "missing closing )").
  - discriminate.
  - reflexivity.
  - reflexivity.
Defined.

Lemma RunE_compiled_errors_witness :
  fst Scenario.compiledRunRefused
  = Cmd.Failed (ErrCannotSaveSuite "B" "permission denied")
  /\ ((exists cause,
         ErrCannotSaveSuite "B" "permission denied"
         = ErrCannotBuildExamples cause)
      \/ exists name cause,
           ErrCannotSaveSuite "B" "permission denied"
           = ErrCannotSaveSuite name cause).
Proof.
  split; [reflexivity|].
  apply (RunE_compiled_errors (C := Scenario.refusing "out/b/suite.sh")
           EmptyString None ["in"; "out"] Sample.emptyState).
  - discriminate.
  - reflexivity.
Defined.

Lemma RunE_compiled_writes_all_witness :
  fst Scenario.compiledRun = Cmd.Done tt
  /\ Cmd.log (snd Scenario.compiledRun)
     = MkdirAll "out"
       :: Behaviour.compiledEventsOf Sample.A
       ++ Behaviour.compiledEventsOf Sample.B.
Proof.
  apply (RunE_compiled_writes_all (C := Sample.selectionCommand)
           EmptyString (Some false) ["in"; "out"] Sample.emptyState
           ["in/README.md"; "in/a/README.md"; "in/b/README.md"]).
  - discriminate.
  - exact selection_accepts.
  - reflexivity.
  - exact selection_valid.
Defined.

End ScenarioRuns.
